(** * rx-dashboard: the connection service and the alert pipelines

    A shallow embedding of [websocket-service.js] (class [WebSocketService])
    and of the [Dashboard] class whose [setupObservables] builds
    [priceAlerts$], [volumeAlerts$] and [allAlerts$].

    - JavaScript numbers are IEEE 754 binary64 values: Rocq's primitive
      [float].  The built-ins the code calls ([parseFloat], [toFixed],
      [Math.ceil], [Math.min], number-to-string) are defined in [Js] after
      ECMA-262.  [Math.log] is implementation-approximated in ECMA-262, so
      the service takes it as a parameter; [Js.Math_log_ref] is one
      conforming instance.
    - An RxJS pipeline is modelled by what it does on each notification:
      a step function from a state and an event to a new state and the
      list of effects, or a function from a window or an accumulator to
      what is emitted.  [Date.now()] is the [now] argument. *)

From Stdlib Require Import ZArith List Bool Ascii String Floats Lia DecimalString.
Import ListNotations.
Local Open Scope Z_scope.
Set Warnings "-register-all,-inexact-float".

(** ** ECMAScript built-ins *)

Module Js.

Definition number := float.

(** The binary64 value nearest to [m * 2^e] (ties to even). *)
Definition binary64 (neg : bool) (m : Z) (e : Z) : number :=
  SF2Prim (binary_normalize prec emax (if neg then - m else m) e neg).

(** The binary64 value nearest to [m / d], for [m >= 0] and [d > 0]. *)
Definition binary64_quot (neg : bool) (m d : Z) : number :=
  match m with
  | Z0 => if neg then neg_zero else zero
  | _ =>
    let '(q, e, l) := SFdiv_core_binary prec emax m 0 d 0 in
    SF2Prim (binary_round_aux prec emax neg q e l)
  end.

(** The Number value for the decimal [m * 10^e]. *)
Definition decimal_value (neg : bool) (m : Z) (e : Z) : number :=
  if 0 <=? e then binary64 neg (m * 10 ^ e) 0
  else binary64_quot neg m (10 ^ (- e)).

Definition is_digit (c : ascii) : bool :=
  let n := nat_of_ascii c in (48 <=? n)%nat && (n <=? 57)%nat.

Definition digit_val (c : ascii) : Z := Z.of_nat (nat_of_ascii c) - 48.

(** White space and line terminators; a string is a sequence of ASCII
    characters. *)
Definition is_white (c : ascii) : bool :=
  let n := nat_of_ascii c in
  ((9 <=? n)%nat && (n <=? 13)%nat) || (n =? 32)%nat.

Fixpoint trim_start (s : string) : string :=
  match s with
  | String c r => if is_white c then trim_start r else s
  | EmptyString => s
  end.

(** Reads decimal digits: the number read after [acc], how many digits
    were read after [n], and the rest of the string. *)
Fixpoint digits (acc : Z) (n : Z) (s : string) : Z * Z * string :=
  match s with
  | String c r =>
    if is_digit c then digits (10 * acc + digit_val c) (n + 1) r else (acc, n, s)
  | EmptyString => (acc, n, s)
  end.

(** ExponentPart: [e] or [E], an optional sign, at least one digit;
    anything else is no part of the literal and counts as exponent 0. *)
Definition exponent_part (s : string) : Z :=
  match s with
  | String c r =>
    if (nat_of_ascii c =? 101)%nat || (nat_of_ascii c =? 69)%nat then
      let '(neg, r') :=
        match r with
        | String "+" t => (false, t)
        | String "-" t => (true, t)
        | _ => (false, r)
        end in
      let '(x, n, _) := digits 0 0 r' in
      if n =? 0 then 0 else if neg then - x else x
    else 0
  | EmptyString => 0
  end.

(** The longest prefix that is a StrUnsignedDecimalLiteral, as a Number;
    NaN when there is none. *)
Definition unsigned_literal (neg : bool) (s : string) : number :=
  if prefix "Infinity" s then (if neg then neg_infinity else infinity)
  else
    let '(i, ni, r) := digits 0 0 s in
    match r with
    | String "." t =>
      let '(m, nf, r') := digits i 0 t in
      if (ni =? 0) && (nf =? 0) then nan
      else decimal_value neg m (exponent_part r' - nf)
    | _ => if ni =? 0 then nan else decimal_value neg i (exponent_part r)
    end.

(** [parseFloat(string)]. *)
Definition parseFloat (input : string) : number :=
  match trim_start input with
  | String "-" r => unsigned_literal true r
  | String "+" r => unsigned_literal false r
  | s => unsigned_literal false s
  end.

Definition Z_to_string (n : Z) : string :=
  NilZero.string_of_uint (N.to_uint (Z.to_N n)).

Definition ndigits (n : Z) : Z := Z.of_nat (String.length (Z_to_string n)).

Fixpoint zeros (n : nat) : string :=
  match n with
  | O => EmptyString
  | S k => String "0" (zeros k)
  end.

Definition pow10 (z : Z) : Z := 10 ^ Z.max 0 z.

Definition pow2 (z : Z) : Z := 2 ^ Z.max 0 z.

(** [Math.ceil]. *)
Definition Math_ceil (x : number) : number :=
  match Prim2SF x with
  | S754_finite s m e =>
    if 0 <=? e then x
    else
      let q := Z.pos m / pow2 (- e) in
      let r := Z.pos m mod pow2 (- e) in
      if s then (if q =? 0 then neg_zero else binary64 true q 0)
      else binary64 false (if r =? 0 then q else q + 1) 0
  | _ => x
  end.

(** [Math.min] of two arguments: NaN when one is NaN, and -0 below +0. *)
Definition Math_min (a b : number) : number :=
  if is_nan a || is_nan b then nan
  else if (a <? b)%float then a
  else if (b <? a)%float then b
  else if get_sign a then a else b.

Definition Math_abs (x : number) : number := abs x.

(** The [n] with [10^(n-1) <= num/den < 10^n], for [num, den > 0]. *)
Definition decimal_exponent (num den : Z) : Z :=
  if den <=? num then ndigits (num / den)
  else
    let j := ndigits (den / num) - 1 in
    if den <=? pow10 j * num then 1 - j else - j.

(** The [k]-digit decimals next to [num/den] that read back as [x]: the
    nearer one (the even one of two equally near), as digits and
    exponent [n]. *)
Definition candidate (x : number) (num den n k : Z) : option (Z * Z) :=
  let a := num * pow10 (k - n) in
  let b := den * pow10 (n - k) in
  let s0 := a / b in
  let s1 := s0 + 1 in
  let ok s := (decimal_value false s (n - k) =? x)%float in
  let pick s := if s =? pow10 k then Some (1, n + 1) else Some (s, n) in
  match ok s0 && (pow10 (k - 1) <=? s0), ok s1 with
  | true, true =>
    match 2 * (a mod b) ?= b with
    | Lt => pick s0
    | Gt => pick s1
    | Eq => if Z.even s0 then pick s0 else pick s1
    end
  | true, false => pick s0
  | false, true => pick s1
  | false, false => None
  end.

(** The shortest decimal that reads back as [x], trying [k], [k+1], ...
    digits; 17 digits always do for a binary64 value. *)
Fixpoint shortest (fuel : nat) (x : number) (num den n k : Z) : Z * Z :=
  match fuel with
  | O => (0, 0)
  | S fuel' =>
    match candidate x num den n k with
    | Some r => r
    | None => shortest fuel' x num den n (k + 1)
    end
  end.

Definition substring_from (i : nat) (s : string) : string :=
  substring i (String.length s - i) s.

Definition exponent_suffix (n : Z) : string :=
  let sign : string := if 0 <=? n - 1 then "+"%string else "-"%string in
  ("e" ++ sign ++ Z_to_string (Z.abs (n - 1)))%string.

(** [Number::toString(x)] in radix 10. *)
Definition Number_toString (x : number) : string :=
  match Prim2SF x with
  | S754_nan => "NaN"%string
  | S754_zero _ => "0"%string
  | S754_infinity s => if s then "-Infinity"%string else "Infinity"%string
  | S754_finite sg m e =>
    let num := Z.pos m * pow2 e in
    let den := pow2 (- e) in
    let '(s, n) := shortest 17 (abs x) num den (decimal_exponent num den) 1 in
    let ds := Z_to_string s in
    let k := Z.of_nat (String.length ds) in
    let body :=
      if (k <=? n) && (n <=? 21) then (ds ++ zeros (Z.to_nat (n - k)))%string
      else if (0 <? n) && (n <=? 21) then
        (substring 0 (Z.to_nat n) ds ++ "." ++ substring_from (Z.to_nat n) ds)%string
      else if (-6 <? n) && (n <=? 0) then ("0." ++ zeros (Z.to_nat (- n)) ++ ds)%string
      else if k =? 1 then (ds ++ exponent_suffix n)%string
      else (substring 0 1 ds ++ "." ++ substring_from 1 ds ++ exponent_suffix n)%string in
    if sg then ("-" ++ body)%string else body
  end.

(** [Number.prototype.toFixed(f)], [0 <= f <= 100]: the integer [n] with
    [n / 10^f] nearest to [|x|] (the larger of two equally near), printed
    with [f] digits after the point. *)
Definition toFixed (x : number) (f : nat) : string :=
  match Prim2SF x with
  | S754_finite sg m e =>
    if (1e21 <=? abs x)%float then Number_toString x
    else
      let num := Z.pos m * pow2 e * 10 ^ Z.of_nat f in
      let den := pow2 (- e) in
      let n := (2 * num + den) / (2 * den) in
      let ds := Z_to_string n in
      let ds := (zeros (f + 1 - String.length ds) ++ ds)%string in
      let k := String.length ds in
      let body : string :=
        match f with
        | O => ds
        | _ => (substring 0 (k - f) ds ++ "." ++ substring_from (k - f) ds)%string
        end in
      if sg then ("-" ++ body)%string else body
  | S754_zero _ =>
    match f with
    | O => "0"%string
    | _ => ("0." ++ zeros f)%string
    end
  | _ => Number_toString x
  end.

(** [ToNumber] of a value that may be [undefined]. *)
Definition ToNumber (v : option number) : number :=
  match v with
  | Some x => x
  | None => nan
  end.

(** [String.prototype.replace] with a string pattern and a replacement
    without [$]: the first occurrence only. *)
Fixpoint replace (pat rep s : string) : string :=
  if prefix pat s then (rep ++ substring_from (String.length pat) s)%string
  else
    match s with
    | String c r => String c (replace pat rep r)
    | EmptyString => EmptyString
    end.

(** What ECMA-262 fixes of [Math.log]; the other results are
    implementation-approximated. *)
Definition conforming_log (log : number -> number) : Prop :=
  log nan = nan /\
  (forall x, (x <? zero)%float = true -> log x = nan) /\
  log zero = neg_infinity /\
  log neg_zero = neg_infinity /\
  log one = zero /\
  log infinity = infinity.

(** [sum + t/1 + t*z2/3 + t*z2^2/5 + ...] in fixed point with [p]
    fractional bits, [t] being the term of odd index [i]. *)
Fixpoint atanh_series (fuel : nat) (p z2 t i sum : Z) : Z :=
  match fuel with
  | O => sum
  | S fuel' =>
    atanh_series fuel' p z2 (Z.shiftr (t * z2) p) (i + 2) (sum + t / i)
  end.

(** [2 * atanh (a / b)] with [p] fractional bits, for [0 <= 3 * a <= b]. *)
Definition two_atanh (p a b : Z) : Z :=
  let z := Z.shiftl a p / b in
  2 * atanh_series 48 p (Z.shiftr (z * z) p) z 1 0.

(** A conforming [Math.log]: the natural logarithm computed with 128
    fractional bits, [ln (m * 2^e) = (e + d - 1) * ln 2 + ln (m / 2^(d-1))]
    and [ln y = 2 * atanh ((y - 1) / (y + 1))], then rounded to binary64. *)
Definition Math_log_ref (x : number) : number :=
  if (x <? zero)%float then nan
  else
    match Prim2SF x with
    | S754_nan => nan
    | S754_zero _ => neg_infinity
    | S754_infinity s => if s then nan else infinity
    | S754_finite _ m e =>
      let d := Z.pos (digits2_pos m) in
      let h := 2 ^ (d - 1) in
      let ln2 := two_atanh 128 1 3 in
      let r := (e + d - 1) * ln2 + two_atanh 128 (Z.pos m - h) (Z.pos m + h) in
      binary64 (r <? 0) (Z.abs r) (-128)
    end.

End Js.

Import Js.

(** ** Data model *)

(** A deserialized upstream message: a JSON value.  An object is the list
    of its own properties, one entry per key. *)
Inductive Json : Type :=
| JNull
| JBool (b : bool)
| JNum (x : number)
| JStr (s : string)
| JArr (items : list Json)
| JObj (fields : list (string * Json)).

(** A ticker record as [processBinanceData] builds it. *)
Record Crypto : Type := mkCrypto {
  symbol : string;
  price : number;
  priceChange : number;
  volume : number;
  volumeScore : number
}.

Record Snapshot : Type := mkSnapshot {
  cryptos : list Crypto;
  timestamp : Z
}.

(** The strings published on [connectionStatus$]. *)
Inductive ConnectionState : Type :=
| connected
| disconnected
| connecting
| reconnecting
| error.

(** What the service receives: notifications of [socket$] and of its open
    and close observers, a tick of [interval(30000)] together with what
    [socket$.closed] reads at that tick, and calls of its methods. *)
Inductive Event : Type :=
| SocketOpen
| SocketClose
| SocketMessage (m : Json)
| SocketError
| SocketEnd
| HeartbeatTick (closed : bool)
| CallReconnect
| CallClose.

(** What the service does in response: a status published on
    [connectionStatus$], a Snapshot delivered by [data$] or its completion,
    the wait of [delay], the new subscription of [retryWhen], the call
    [socket$.complete()], and the TypeError that leaves [reconnect()]. *)
Inductive Effect : Type :=
| Status (s : ConnectionState)
| Data (s : Snapshot)
| DataComplete
| Wait (ms : Z)
| Resubscribe
| SocketComplete
| TypeError.

(** [retryIndex] is the index [i] that [map] passes to its callback inside
    [retryWhen]; [dataDone] and [heartbeatDone] say that [data$] and
    [heartbeat$] have completed. *)
Record ServiceState : Type := mkState {
  retryIndex : nat;
  dataDone : bool;
  heartbeatDone : bool
}.

Definition initial : ServiceState := mkState 0 false false.

(** ** websocket-service.js *)

Definition tickers : list string :=
  ["BTCUSDT"; "ETHUSDT"; "SOLUSDT"; "ADAUSDT"]%string.

Definition Array_isArray (m : Json) : bool :=
  match m with
  | JArr _ => true
  | _ => false
  end.

Fixpoint own_property (k : string) (fields : list (string * Json)) : option Json :=
  match fields with
  | [] => None
  | (k', v) :: r => if String.eqb k' k then Some v else own_property k r
  end.

(** [item.k] for one of the keys the code reads ([s], [c], [P], [v], none
    of them a property of a built-in prototype): the outer [None] is the
    TypeError of reading a property of [null], the inner [None] is
    [undefined]. *)
Definition get (item : Json) (k : string) : option (option Json) :=
  match item with
  | JNull => None
  | JObj fields => Some (own_property k fields)
  | _ => Some None
  end.

(** [tickers.includes(v)]: only a string can be the same value as a
    ticker. *)
Definition includes (v : option Json) : bool :=
  match v with
  | Some (JStr s) => existsb (String.eqb s) tickers
  | _ => false
  end.

Fixpoint join (parts : list string) : string :=
  match parts with
  | [] => EmptyString
  | [p] => p
  | p :: r => (p ++ "," ++ join r)%string
  end.

Fixpoint sequence {A : Type} (l : list (option A)) : option (list A) :=
  match l with
  | [] => Some []
  | None :: _ => None
  | Some a :: r =>
    match sequence r with
    | Some r' => Some (a :: r')
    | None => None
    end
  end.

(** [ToString] of a JSON value; [None] is the TypeError of an object whose
    own [toString] property hides the method. *)
Fixpoint ToString (j : Json) : option string :=
  match j with
  | JNull => Some "null"%string
  | JBool b => Some (if b then "true"%string else "false"%string)
  | JNum x => Some (Number_toString x)
  | JStr s => Some s
  | JArr items =>
    option_map join
      (sequence
         (map (fun e => match e with
                        | JNull => Some EmptyString
                        | _ => ToString e
                        end) items))
  | JObj fields =>
    match own_property "toString" fields with
    | Some _ => None
    | None => Some "[object Object]"%string
    end
  end.

(** [parseFloat(v)] of a property value: [None] when [ToString] throws. *)
Definition parseFloat_value (v : option Json) : option number :=
  match v with
  | None => Some nan
  | Some j => option_map parseFloat (ToString j)
  end.

Section Service.

Variable Math_log : number -> number.

(** [Math.min(10, Math.ceil(Math.log(v) / 10))]. *)
Definition volume_score (v : number) : number :=
  Math_min 10%float (Math_ceil (Math_log v / 10)%float).

(** The [filter] callback of [processBinanceData]. *)
Definition is_ticker (item : Json) : option bool :=
  option_map includes (get item "s").

(** The [map] callback of [processBinanceData], on an item that passed the
    filter. *)
Definition to_crypto (item : Json) : option Crypto :=
  match get item "s", get item "c", get item "P", get item "v" with
  | Some (Some (JStr s)), Some c, Some P, Some v =>
    match parseFloat_value c, parseFloat_value P, parseFloat_value v with
    | Some c', Some P', Some v' =>
      Some (mkCrypto (replace "USDT" "" s) c' P' v' (volume_score v'))
    | _, _, _ => None
    end
  | _, _, _, _ => None
  end.

(** [data.filter(...)]: [None] when a callback throws. *)
Fixpoint filter_tickers (data : list Json) : option (list Json) :=
  match data with
  | [] => Some []
  | item :: r =>
    match is_ticker item with
    | None => None
    | Some keep =>
      match filter_tickers r with
      | None => None
      | Some r' => Some (if keep then item :: r' else r')
      end
    end
  end.

(** [processBinanceData(data)]; [None] when it throws. *)
Definition processBinanceData (data : list Json) (now : Z) : option Snapshot :=
  match filter_tickers data with
  | None => None
  | Some filtered =>
    match sequence (map to_crypto filtered) with
    | None => None
    | Some cs => Some (mkSnapshot cs now)
    end
  end.

(** [of({ cryptos: [], timestamp: Date.now() })]. *)
Definition empty_snapshot (now : Z) : Snapshot := mkSnapshot [] now.

(** The selector of [catchError] on [data$]: the status, the one value of
    [of(...)], and the completion that follows it. *)
Definition caught (now : Z) : list Effect :=
  [Status error; Data (empty_snapshot now); DataComplete].

(** [reconnect()]: [socket$.complete()] is called; the next statement,
    [socket$.connect()], throws a TypeError, since the subject that
    [webSocket] returns has no such method, so nothing is connected and
    "connecting" is not published. *)
Definition reconnect : list Effect :=
  [SocketComplete; TypeError].

(** One notification, handled at time [now].
    - An error of [socket$] goes to [retryWhen]: after [delay(1000)] the
      [map] callback runs with the next index [i]; for [i >= 5] it rethrows
      and [catchError] takes over, otherwise it publishes "reconnecting" and
      its result makes [retryWhen] subscribe again.
    - A message passes [filter(Array.isArray)] and [map(processBinanceData)];
      an exception of the latter goes to [catchError].
    - A heartbeat tick that finds the socket closed makes [switchMap]'s
      inner [throwError] reach [catchError], which calls [reconnect()]:
      the exception of that call ends [heartbeat$].
    - [close()] signals [closeSubject], on which [takeUntil] completes
      [heartbeat$] and [data$], and completes [socket$].
    The effects of a failure are listed at the failure; an event that falls
    inside the 1000 ms of the delay is outside the model. *)
Definition step (st : ServiceState) (now : Z) (ev : Event)
  : ServiceState * list Effect :=
  match ev with
  | SocketOpen => (st, [Status connected])
  | SocketClose => (st, [Status disconnected])
  | SocketError =>
    if dataDone st then (st, [])
    else if (5 <=? retryIndex st)%nat then
      (mkState (S (retryIndex st)) true (heartbeatDone st),
       Wait 1000 :: caught (now + 1000))
    else
      (mkState (S (retryIndex st)) false (heartbeatDone st),
       [Wait 1000; Status reconnecting; Resubscribe])
  | SocketMessage m =>
    if dataDone st then (st, [])
    else
      match m with
      | JArr data =>
        match processBinanceData data now with
        | Some s => (st, [Data s])
        | None => (mkState (retryIndex st) true (heartbeatDone st), caught now)
        end
      | _ => (st, [])
      end
  | SocketEnd =>
    if dataDone st then (st, [])
    else (mkState (retryIndex st) true (heartbeatDone st), [DataComplete])
  | HeartbeatTick closed =>
    if heartbeatDone st then (st, [])
    else if closed then (mkState (retryIndex st) (dataDone st) true, reconnect)
    else (st, [])
  | CallReconnect => (st, reconnect)
  | CallClose =>
    (mkState (retryIndex st) true true,
     (if dataDone st then [] else [DataComplete]) ++ [SocketComplete])
  end.

(** Whether [processBinanceData] throws on a message. *)
Definition throws (m : Json) : bool :=
  match m with
  | JArr data =>
    match processBinanceData data 0 with
    | None => true
    | Some _ => false
    end
  | _ => false
  end.

(** The events that leave [data$] running as long as the retries have not
    run out: all but the end of the socket stream, [close()], and a message
    on which the processing throws. *)
Definition quiet (e : Z * Event) : bool :=
  match snd e with
  | SocketEnd | CallClose => false
  | SocketMessage m => negb (throws m)
  | _ => true
  end.

(** A run: the events in order, each with the time it is handled at. *)
Fixpoint run (st : ServiceState) (tr : list (Z * Event))
  : ServiceState * list Effect :=
  match tr with
  | [] => (st, [])
  | (now, ev) :: r =>
    let '(st1, out1) := step st now ev in
    let '(st2, out2) := run st1 r in
    (st2, out1 ++ out2)
  end.

End Service.

(** ** The Dashboard's derived streams *)

Record PriceAlert : Type := mkPriceAlert {
  pa_symbol : string;
  pctChange : string;
  isUp : bool;
  pa_timestamp : Z
}.

Record VolumeAlert : Type := mkVolumeAlert {
  va_symbol : string;
  volumeIncrease : string;
  va_timestamp : Z
}.

(** An element of the buffer of [priceAlerts$].  The [map] before
    [buffer] emits the array [cryptos.flatMap(...)] as one value, so the
    buffer holds arrays; the [reduce] callback reads [item.symbol] and
    [item.price] as of a single record. *)
Inductive Item : Type :=
| ItemArray (a : list Crypto)
| ItemObject (c : Crypto).

(** [item.symbol] and [item.price]: [None] is [undefined], which is what an
    array has for them. *)
Definition item_symbol (it : Item) : option string :=
  match it with
  | ItemObject c => Some (symbol c)
  | ItemArray _ => None
  end.

Definition item_price (it : Item) : option number :=
  match it with
  | ItemObject c => Some (price c)
  | ItemArray _ => None
  end.

(** The property key a value is converted to in [acc[item.symbol]]. *)
Definition property_key (v : option string) : string :=
  match v with
  | Some s => s
  | None => "undefined"%string
  end.

(** [if (!acc[k]) acc[k] = []; acc[k].push(item)], the object being the
    list of its entries in insertion order: the order of [Object.entries]
    for keys that are no array indices.  This is the object for the keys
    that occur, "undefined" and the symbols of the allow-list; for a key
    inherited from [Object.prototype] the code finds a value, creates no
    group and throws on [push], which is outside this definition (see
    [plain_key]). *)
Fixpoint push_item (k : string) (it : Item) (acc : list (string * list Item))
  : list (string * list Item) :=
  match acc with
  | [] => [(k, [it])]
  | (k', items) :: r =>
    if String.eqb k' k then (k', items ++ [it]) :: r
    else (k', items) :: push_item k it r
  end.

Definition bySymbol (buffer : list Item) : list (string * list Item) :=
  fold_left (fun acc it => push_item (property_key (item_symbol it)) it acc)
            buffer [].

(** [items[i].price]. *)
Definition price_at (items : list Item) (i : nat) : option number :=
  match nth_error items i with
  | Some it => item_price it
  | None => None
  end.

(** The callback over [Object.entries(bySymbol)]; [None] is [null]. *)
Definition swing (now : Z) (entry : string * list Item) : option PriceAlert :=
  let '(sym, items) := entry in
  if (List.length items <? 2)%nat then None
  else
    let first := ToNumber (price_at items 0) in
    let last := ToNumber (price_at items (List.length items - 1)) in
    let pct := ((last - first) / first * 100)%float in
    if (1 <=? Math_abs pct)%float
    then Some (mkPriceAlert sym (toFixed pct 2) (0 <? pct)%float now)
    else None.

(** [.filter((item) => item !== null)] after a [map]. *)
Fixpoint compact {A : Type} (l : list (option A)) : list A :=
  match l with
  | [] => []
  | Some a :: r => a :: compact r
  | None :: r => compact r
  end.

(** [priceAlerts$] from [buffer] on: what is emitted when a window closes
    with [buffer] collected; [None] is no emission. *)
Definition window_alerts (now : Z) (buffer : list Item)
  : option (list PriceAlert) :=
  match buffer with
  | [] => None
  | _ => Some (compact (map (swing now) (bySymbol buffer)))
  end.

(** The two [map]s before [buffer]: one value per Snapshot. *)
Definition explode (data : Snapshot) : Item := ItemArray (cryptos data).

(** [priceAlerts$] on the Snapshots of one 5-minute window. *)
Definition priceAlerts (now : Z) (window : list Snapshot)
  : option (list PriceAlert) :=
  window_alerts now (map explode window).

(** The accumulator of [scan] in [volumeAlerts$]; [prev = None] is
    [null]. *)
Record VolumeAcc : Type := mkAcc {
  prev : option (list Crypto);
  alerts : list VolumeAlert
}.

Definition volume_seed : VolumeAcc := mkAcc None [].

Definition same_symbol (current p : Crypto) : bool :=
  String.eqb (symbol p) (symbol current).

(** The ratio the detector compares with the threshold. *)
Definition increase (current p : Crypto) : number :=
  ((volume current - volume p) / volume p)%float.

(** The callback of [data.cryptos.map]; [None] is [null]. *)
Definition check_volume (now : Z) (previous : list Crypto) (current : Crypto)
  : option VolumeAlert :=
  match find (same_symbol current) previous with
  | None => None
  | Some p =>
    if (0.2 <? increase current p)%float
    then Some (mkVolumeAlert (symbol current)
                             (toFixed (increase current p * 100)%float 0) now)
    else None
  end.

(** The reducer of [scan]. *)
Definition volume_scan (now : Z) (acc : VolumeAcc) (data : Snapshot) : VolumeAcc :=
  match prev acc with
  | None => mkAcc (Some (cryptos data)) []
  | Some previous =>
    mkAcc (Some (cryptos data))
          (compact (map (check_volume now previous) (cryptos data)))
  end.

(** [filter(result => result.alerts.length > 0)] and [map]. *)
Definition volume_emit (acc : VolumeAcc) : option (list VolumeAlert) :=
  match alerts acc with
  | [] => None
  | l => Some l
  end.

(** The accumulator after the Snapshots that [debounceTime] lets through,
    each with the time it is processed at. *)
Definition volume_run (acc : VolumeAcc) (processed : list (Z * Snapshot))
  : VolumeAcc :=
  fold_left (fun a d => volume_scan (fst d) a (snd d)) processed acc.

(** [volumeAlerts$]: the batches emitted over the processed Snapshots. *)
Fixpoint volumeAlerts (acc : VolumeAcc) (processed : list (Z * Snapshot))
  : list (list VolumeAlert) :=
  match processed with
  | [] => []
  | d :: r =>
    let acc' := volume_scan (fst d) acc (snd d) in
    match volume_emit acc' with
    | Some l => l :: volumeAlerts acc' r
    | None => volumeAlerts acc' r
    end
  end.

(** The volume the accumulator holds for a symbol. *)
Definition recorded_volume (sym : string) (acc : VolumeAcc) : option number :=
  match prev acc with
  | None => None
  | Some previous =>
    option_map volume (find (fun p => String.eqb (symbol p) sym) previous)
  end.

Section AlertAggregator.

(** The entries [{ text, timestamp, type }] that the two [map]s before
    [merge] build, one per alert; the reducer does not look into them. *)
Variable Entry : Type.

(** [[...newAlerts, ...allAlerts].slice(0, 5)]. *)
Definition aggregate (allAlerts newAlerts : list Entry) : list Entry :=
  firstn 5 (newAlerts ++ allAlerts).

(** The list [allAlerts$] holds after the merged batches, in arrival
    order. *)
Definition allAlerts (batches : list (list Entry)) : list Entry :=
  fold_left aggregate batches [].

End AlertAggregator.

Arguments aggregate {Entry}.
Arguments allAlerts {Entry}.

(** ** Inputs used in examples *)

(** A record with the given symbol, price and volume. *)
Definition quote (sym : string) (p v : number) : Crypto :=
  mkCrypto sym p 0%float v 1%float.

(** A ticker object of the upstream feed. *)
Definition ticker (s c P v : string) : Json :=
  JObj [("s"%string, JStr s); ("c"%string, JStr c);
        ("P"%string, JStr P); ("v"%string, JStr v)].

(** A connection that fails, is retried with success, and fails again:
    six failures, no two of them in a row. *)
Definition flaky_run : list (Z * Event) :=
  [(0, SocketError); (1500, SocketOpen);
   (60000, SocketError); (61500, SocketOpen);
   (120000, SocketError); (121500, SocketOpen);
   (180000, SocketError); (181500, SocketOpen);
   (240000, SocketError); (241500, SocketOpen);
   (300000, SocketError)].

(** ** The rest of the Dashboard *)

(** The strings the service passes to [connectionStatus$.next]. *)
Definition status_name (s : ConnectionState) : string :=
  match s with
  | connected => "connected"
  | disconnected => "disconnected"
  | connecting => "connecting"
  | reconnecting => "reconnecting"
  | error => "error"
  end.

(** The [switch] of [connectionStatus$]: the text and the class shown for
    a status string. *)
Definition status_view (status : string) : string * string :=
  if String.eqb status "connected" then ("Connected", "connected")%string
  else if String.eqb status "disconnected" then ("Disconnected", "disconnected")%string
  else if String.eqb status "connecting" then ("Connecting...", "disconnected")%string
  else if String.eqb status "reconnecting" then ("Reconnecting...", "disconnected")%string
  else if String.eqb status "error" then ("Connection Error", "disconnected")%string
  else ("Unknown", "")%string.

(** The text the subscriber of [connectionStatus$] puts next to it. *)
Definition connection_info (view : string * string) : string :=
  if String.eqb (snd view) "connected" then "Live data streaming"%string
  else "Waiting for connection..."%string.

(** What [uiData$] sees: a Snapshot of [data$] or a tick of
    [interval(1000)]. *)
Inductive UiEvent : Type :=
| Arrives (d : Snapshot)
| SampleTick.

(** [sample(interval(1000))]: a tick emits the latest Snapshot if one
    arrived since the last emission; [latest] is that Snapshot. *)
Fixpoint sample (latest : option Snapshot) (evs : list UiEvent) : list Snapshot :=
  match evs with
  | [] => []
  | Arrives d :: r => sample (Some d) r
  | SampleTick :: r =>
    match latest with
    | Some d => d :: sample None r
    | None => sample None r
    end
  end.

(** The Snapshot that waits for the next tick, as a list. *)
Definition pending (latest : option Snapshot) : list Snapshot :=
  match latest with
  | Some d => [d]
  | None => []
  end.

Definition nonempty {A : Type} (b : list A) : bool :=
  match b with
  | [] => false
  | _ => true
  end.

Definition arrivals (evs : list UiEvent) : list Snapshot :=
  compact (map (fun e => match e with
                         | Arrives d => Some d
                         | SampleTick => None
                         end) evs).

Definition sample_ticks (evs : list UiEvent) : nat :=
  List.length (filter (fun e => match e with
                                | SampleTick => true
                                | Arrives _ => false
                                end) evs).

(** [l] is [m] with some elements left out. *)
Inductive Subsequence {A : Type} : list A -> list A -> Prop :=
| sub_nil : Subsequence [] []
| sub_skip (a : A) (l m : list A) : Subsequence l m -> Subsequence l (a :: m)
| sub_keep (a : A) (l m : list A) : Subsequence l m -> Subsequence (a :: l) (a :: m).

(** The key an element of the buffer is grouped under. *)
Definition item_key (it : Item) : string := property_key (item_symbol it).

(** [bySymbol[k]], the empty list standing for [undefined]. *)
Fixpoint group (k : string) (acc : list (string * list Item)) : list Item :=
  match acc with
  | [] => []
  | (k', items) :: r => if String.eqb k' k then items else group k r
  end.

(** ** More about the effects of the service *)

Definition is_error_status (e : Effect) : bool :=
  match e with
  | Status error => true
  | _ => false
  end.

(** The effects [data$], its retries and the heartbeat are behind. *)
Definition automatic (e : Effect) : bool :=
  match e with
  | Data _ | DataComplete | Wait _ | Resubscribe | TypeError => true
  | Status reconnecting | Status error | Status connecting => true
  | _ => false
  end.

Definition not_reconnect (e : Z * Event) : bool :=
  match snd e with
  | CallReconnect => false
  | _ => true
  end.

(** The symbols [processBinanceData] can give a record. *)
Definition symbols : list string := ["BTC"; "ETH"; "SOL"; "ADA"]%string.

Definition is_complete (e : Effect) : bool :=
  match e with
  | DataComplete => true
  | _ => false
  end.





(** The Snapshots of the array messages of a run, each processed at the
    time its message is handled at, [log] being [Math.log]. *)
Definition delivered (log : number -> number) (tr : list (Z * Event))
  : list Snapshot :=
  compact (map (fun e => match snd e with
                         | SocketMessage (JArr data) =>
                           processBinanceData log data (fst e)
                         | _ => None
                         end) tr).

Definition snapshot_of (e : Effect) : option Snapshot :=
  match e with
  | Data s => Some s
  | _ => None
  end.

(** The Snapshots [data$] delivers among the effects of a run. *)
Definition snapshots (out : list Effect) : list Snapshot :=
  compact (map snapshot_of out).

(** A run with a message, a failure, the retry that succeeds, a control
    frame and another message. *)
Definition retried_run : list (Z * Event) :=
  [(0, SocketOpen);
   (100, SocketMessage (JArr [ticker "BTCUSDT" "100" "1" "1000"]));
   (200, SocketError); (1300, SocketOpen);
   (1400, SocketMessage (JObj [("id"%string, JNum 1%float)]));
   (1500, SocketMessage (JArr [ticker "ETHUSDT" "7" "2" "30000"]))].

(** A frame of the socket, by what the deserializer makes of its text:
    [webSocket] is given none, so it is [JSON.parse]; [None] is its
    SyntaxError, which the socket passes on as an error of [socket$]. *)
Definition frame (parsed : option Json) : Event :=
  match parsed with
  | Some m => SocketMessage m
  | None => SocketError
  end.

(** Six frames in a row that are no JSON. *)
Definition malformed_run : list (Z * Event) :=
  [(0, frame None); (2000, frame None); (4000, frame None);
   (6000, frame None); (8000, frame None); (10000, frame None)].

(** The property names every plain object inherits from
    [Object.prototype]. *)
Definition inherited_keys : list string :=
  ["constructor"; "__proto__"; "hasOwnProperty"; "isPrototypeOf";
   "propertyIsEnumerable"; "toLocaleString"; "toString"; "valueOf";
   "__defineGetter__"; "__defineSetter__"; "__lookupGetter__";
   "__lookupSetter__"]%string.

Fixpoint all_digits (s : string) : bool :=
  match s with
  | EmptyString => true
  | String c r => is_digit c && all_digits r
  end.

(** A decimal numeral without a leading zero: the keys that
    [Object.entries] lists first, as array indices. *)
Definition array_index (k : string) : bool :=
  match k with
  | EmptyString => false
  | String c r =>
    all_digits k && (negb (nat_of_ascii c =? 48)%nat || String.eqb r "")
  end.

(** The keys for which an object used as a map is the list of its
    entries in insertion order: not inherited, and no array index. *)
Definition plain_key (k : string) : bool :=
  negb (existsb (String.eqb k) inherited_keys) && negb (array_index k).

(** ** Reference definitions, written from the specification *)

(** The longest run of failures with no successful open in between:
    [cur] is the run that is going on, [best] the longest seen. *)
Fixpoint consecutive_failures (cur best : nat) (tr : list (Z * Event)) : nat :=
  match tr with
  | [] => Nat.max cur best
  | (_, SocketError) :: r => consecutive_failures (S cur) best r
  | (_, SocketOpen) :: r => consecutive_failures 0 (Nat.max cur best) r
  | _ :: r => consecutive_failures cur best r
  end.

(** The events of the connection itself. *)
Definition lifecycle (e : Z * Event) : bool :=
  match snd e with
  | SocketOpen | SocketClose | SocketError => true
  | _ => false
  end.

Definition is_failure (e : Z * Event) : bool :=
  match snd e with
  | SocketError => true
  | _ => false
  end.

(** The number of failures of a run. *)
Definition failures (tr : list (Z * Event)) : nat :=
  List.length (filter is_failure tr).

(** The retry policy that counts every failure of the run: [failed] is
    the number of failures so far.  Each of the first five is answered,
    after the delay, by a retry; the sixth by the terminal error; later
    ones by nothing. *)
Fixpoint retry_policy (failed : nat) (tr : list (Z * Event)) : list Effect :=
  match tr with
  | [] => []
  | (now, SocketError) :: r =>
    (if (failed <? 5)%nat then [Wait 1000; Status reconnecting; Resubscribe]
     else if (failed =? 5)%nat
          then [Wait 1000; Status error; Data (mkSnapshot [] (now + 1000));
                DataComplete]
          else [])
    ++ retry_policy (S failed) r
  | (_, SocketOpen) :: r => Status connected :: retry_policy failed r
  | (_, SocketClose) :: r => Status disconnected :: retry_policy failed r
  | _ :: r => retry_policy failed r
  end.

(** The effects the retry policy is about. *)
Definition retry_effect (e : Effect) : bool :=
  match e with
  | Wait _ | Resubscribe | DataComplete => true
  | Status reconnecting | Status error => true
  | _ => false
  end.

(** The state the service is in after [k] failures of a run that did not
    end [data$] otherwise. *)
Definition after_failures (k : nat) (st : ServiceState) : Prop :=
  if (k <=? 5)%nat then retryIndex st = k /\ dataDone st = false
  else dataDone st = true.

(** "Mapping symbol -> last observed volume": the volume of the symbol in
    the latest Snapshot that has it. *)
Fixpoint last_observed (sym : string) (snaps : list (Z * Snapshot))
  : option number :=
  match snaps with
  | [] => None
  | d :: r =>
    match last_observed sym r with
    | Some v => Some v
    | None =>
      option_map volume
        (find (fun p => String.eqb (symbol p) sym) (cryptos (snd d)))
    end
  end.

Definition is_retry (e : Effect) : bool :=
  match e with
  | Resubscribe => true
  | _ => false
  end.

Definition is_data (e : Effect) : bool :=
  match e with
  | Data _ => true
  | _ => false
  end.

(** Removes the messages that are no arrays. *)
Definition discard_frames (tr : list (Z * Event)) : list (Z * Event) :=
  filter (fun e => match snd e with
                   | SocketMessage m => Array_isArray m
                   | _ => true
                   end) tr.

(** ** The connection service *)

Section ServiceFacts.

Variable Math_log : number -> number.

Lemma run_cons (st : ServiceState) (now : Z) (ev : Event) (tr : list (Z * Event)) :
  run Math_log st ((now, ev) :: tr) =
  (fst (run Math_log (fst (step Math_log st now ev)) tr),
   snd (step Math_log st now ev) ++ snd (run Math_log (fst (step Math_log st now ev)) tr)).
Proof.
  cbn [run]. destruct (step Math_log st now ev) as [st1 out1].
  cbn [fst snd]. destruct (run Math_log st1 tr) as [st2 out2]. reflexivity.
Qed.

(** Once [data$] has completed, no event delivers a Snapshot or starts a
    retry, and [data$] stays completed. *)
Lemma step_done (st : ServiceState) (now : Z) (ev : Event) :
  dataDone st = true ->
  dataDone (fst (step Math_log st now ev)) = true /\
  filter is_data (snd (step Math_log st now ev)) = [] /\
  filter is_retry (snd (step Math_log st now ev)) = [].
Proof.
  intros Hd. destruct ev; simpl; rewrite ?Hd; simpl; auto.
  - destruct (heartbeatDone st); simpl; auto.
    destruct closed; simpl; auto.
Qed.

Lemma run_done (tr : list (Z * Event)) :
  forall st, dataDone st = true ->
  dataDone (fst (run Math_log st tr)) = true /\
  filter is_data (snd (run Math_log st tr)) = [] /\
  filter is_retry (snd (run Math_log st tr)) = [].
Proof.
  induction tr as [|[now ev] tr IH]; intros st Hd.
  - simpl. auto.
  - rewrite run_cons. simpl fst. simpl snd.
    destruct (step_done st now ev Hd) as (H1 & H2 & H3).
    destruct (IH _ H1) as (K1 & K2 & K3).
    rewrite !filter_app, H2, H3, K2, K3. auto.
Qed.

Lemma processBinanceData_throws (data : list Json) (now : Z) :
  throws Math_log (JArr data) = false ->
  exists s, processBinanceData Math_log data now = Some s.
Proof.
  unfold throws, processBinanceData.
  destruct (filter_tickers data) as [filtered|]; [ | discriminate].
  destruct (sequence (map (to_crypto Math_log) filtered)) as [cs|];
    [ | discriminate].
  intros _. eexists. reflexivity.
Qed.

Lemma step_quiet (k : nat) (st : ServiceState) (now : Z) (ev : Event)
      (r : list (Z * Event)) :
  after_failures k st ->
  quiet Math_log (now, ev) = true ->
  after_failures (failures [(now, ev)] + k) (fst (step Math_log st now ev)) /\
  filter retry_effect (retry_policy k ((now, ev) :: r)) =
  filter retry_effect (snd (step Math_log st now ev)) ++
  filter retry_effect (retry_policy (failures [(now, ev)] + k) r) /\
  (lifecycle (now, ev) = true ->
   retry_policy k ((now, ev) :: r) =
   snd (step Math_log st now ev) ++ retry_policy (failures [(now, ev)] + k) r).
Proof.
  unfold after_failures. intros Hk Hq.
  destruct ev; try discriminate Hq.
  - split; [exact Hk | split; [reflexivity | intros _; reflexivity]].
  - split; [exact Hk | split; [reflexivity | intros _; reflexivity]].
  - change (failures [(now, SocketMessage m)]) with 0%nat.
    cbn [retry_policy Nat.add]. unfold quiet in Hq. cbn [snd] in Hq.
    apply negb_true_iff in Hq.
    assert (Hs : fst (step Math_log st now (SocketMessage m)) = st /\
                 filter retry_effect
                   (snd (step Math_log st now (SocketMessage m))) = []).
    { cbn [step]. destruct (dataDone st); [auto | ].
      destruct m; auto.
      destruct (processBinanceData_throws items now Hq) as (s & Hs).
      rewrite Hs. auto. }
    destruct Hs as [Hs1 Hs2]. rewrite Hs1, Hs2.
    split; [exact Hk | split; [reflexivity | discriminate]].
  - destruct st as [i d h]. change (failures [(now, SocketError)]) with 1%nat.
    destruct k as [|[|[|[|[|[|k]]]]]]; simpl in Hk |- *;
      try (destruct Hk; subst i d; simpl; auto).
    subst d. simpl. auto.
  - change (failures [(now, HeartbeatTick closed)]) with 0%nat.
    cbn [retry_policy Nat.add step].
    destruct (heartbeatDone st); [ | destruct closed];
      (split; [exact Hk | split; [reflexivity | discriminate]]).
  - split; [exact Hk | split; [reflexivity | discriminate]].
Qed.

Lemma failures_cons (e : Z * Event) (tr : list (Z * Event)) :
  failures (e :: tr) = (failures [e] + failures tr)%nat.
Proof.
  unfold failures. simpl. destruct (is_failure e); reflexivity.
Qed.

(** C2, on the code: an error that reaches [catchError] is answered by the
    status "error" and one empty Snapshot, and then [data$] completes.
    After the array [[null]], on which the processing throws, whatever
    message comes next delivers nothing; after six failures, the sixth of
    which exhausts the retries, the same.  From a state where [data$] has
    completed, no run delivers a Snapshot. *)
Theorem caught_error_completes_data :
  (forall now1 now2 m,
     snd (run Math_log initial [(now1, SocketMessage (JArr [JNull]));
                                (now2, SocketMessage m)]) =
     [Status error; Data (mkSnapshot [] now1); DataComplete]) /\
  (forall now m,
     filter is_data
       (snd (run Math_log initial
               [(0, SocketError); (2000, SocketError); (4000, SocketError);
                (6000, SocketError); (8000, SocketError); (10000, SocketError);
                (now, SocketMessage m)])) =
     [Data (mkSnapshot [] 11000)]) /\
  (forall i h tr,
     filter is_data (snd (run Math_log (mkState i true h) tr)) = []).
Proof.
  split; [ | split].
  - intros now1 now2 m. reflexivity.
  - intros now m. reflexivity.
  - intros i h tr. apply (run_done tr (mkState i true h)). reflexivity.
Qed.

Lemma run_discard_frames (tr : list (Z * Event)) :
  forall st, run Math_log st (discard_frames tr) = run Math_log st tr.
Proof.
  induction tr as [|[now ev] tr IH]; intros st.
  - reflexivity.
  - unfold discard_frames in *. simpl filter.
    destruct ev; simpl snd;
      try (rewrite !run_cons, IH; reflexivity).
    destruct (Array_isArray m) eqn:E.
    + rewrite !run_cons, IH. reflexivity.
    + rewrite IH. rewrite run_cons.
      assert (Hs : step Math_log st now (SocketMessage m) = (st, [])).
      { simpl. destruct (dataDone st); [reflexivity|].
        destruct m; try reflexivity. discriminate E. }
      rewrite Hs. simpl. destruct (run Math_log st tr). reflexivity.
Qed.

(** C10 (as amended): a message that the deserializer turned into a JSON
    value that is no array changes nothing and has no effect: no Snapshot,
    no status, no retry; a run with such messages is the run without
    them. *)
Theorem non_array_message_is_discarded (st : ServiceState) (now : Z) (m : Json)
        (tr : list (Z * Event)) :
  Array_isArray m = false ->
  step Math_log st now (SocketMessage m) = (st, []) /\
  run Math_log st ((now, SocketMessage m) :: tr) = run Math_log st tr /\
  run Math_log st (discard_frames tr) = run Math_log st tr.
Proof.
  intros E.
  assert (Hs : step Math_log st now (SocketMessage m) = (st, [])).
  { simpl. destruct (dataDone st); [reflexivity|].
    destruct m; try reflexivity. discriminate E. }
  split; [exact Hs | split].
  - rewrite run_cons, Hs. simpl. destruct (run Math_log st tr). reflexivity.
  - apply run_discard_frames.
Qed.

End ServiceFacts.

(** ** The ticker normalizer *)

(** C7, on the code: the score has no lower bound.  With any [Math.log] that
    conforms to ECMA-262, a negative volume and a volume that is no number
    score NaN, volume 0 scores -Infinity and volume 1 scores 0; the ticker
    with [v = "0"] becomes a record whose score is -Infinity. *)
Theorem volume_score_has_no_lower_bound (log : number -> number) :
  conforming_log log ->
  (forall v, (v <? zero)%float = true -> volume_score log v = nan) /\
  volume_score log nan = nan /\
  volume_score log zero = neg_infinity /\
  volume_score log one = zero /\
  (forall now,
     processBinanceData log [ticker "BTCUSDT" "100" "1" "0"] now =
     Some (mkSnapshot [mkCrypto "BTC" 100%float 1%float 0%float neg_infinity]
                      now)).
Proof.
  intros (Hnan & Hneg & Hzero & _ & Hone & _).
  assert (Hz : volume_score log zero = neg_infinity).
  { unfold volume_score. rewrite Hzero. reflexivity. }
  split; [ | split; [ | split; [ | split]]].
  - intros v Hv. unfold volume_score. rewrite (Hneg v Hv). reflexivity.
  - unfold volume_score. rewrite Hnan. reflexivity.
  - exact Hz.
  - unfold volume_score. rewrite Hone. reflexivity.
  - intros now.
    change (processBinanceData log [ticker "BTCUSDT" "100" "1" "0"] now)
      with (Some (mkSnapshot
                    [mkCrypto "BTC" 100%float 1%float 0%float
                              (volume_score log zero)] now)).
    rewrite Hz. reflexivity.
Qed.

(** ** The price-swing detector *)

Lemma push_undefined (a : list Crypto) (items : list Item) :
  push_item (property_key (item_symbol (ItemArray a))) (ItemArray a)
            [("undefined"%string, items)] =
  [("undefined"%string, items ++ [ItemArray a])].
Proof. reflexivity. Qed.

Lemma bySymbol_arrays (window : list Snapshot) :
  forall items,
  fold_left (fun acc it => push_item (property_key (item_symbol it)) it acc)
            (map explode window) [("undefined"%string, items)] =
  [("undefined"%string, items ++ map explode window)].
Proof.
  induction window as [|d window IH]; intros items.
  - simpl. rewrite app_nil_r. reflexivity.
  - simpl map. cbn [fold_left].
    change (explode d) with (ItemArray (cryptos d)).
    rewrite push_undefined, IH, <- app_assoc. reflexivity.
Qed.

Lemma price_at_arrays (window : list Snapshot) (i : nat) :
  price_at (map explode window) i = None.
Proof.
  unfold price_at.
  destruct (nth_error (map explode window) i) as [it|] eqn:E; [ | reflexivity].
  apply nth_error_In in E. apply in_map_iff in E.
  destruct E as (d & Hd & _). subst it. reflexivity.
Qed.

Lemma swing_arrays (now : Z) (k : string) (window : list Snapshot) :
  swing now (k, map explode window) = None.
Proof.
  unfold swing.
  destruct (List.length (map explode window) <? 2)%nat; [reflexivity | ].
  rewrite !price_at_arrays. reflexivity.
Qed.

Lemma swing_arrays_compact (now : Z) (k : string) (window : list Snapshot) :
  compact (map (swing now) [(k, map explode window)]) = [].
Proof.
  cbn [map compact]. rewrite swing_arrays. reflexivity.
Qed.

Lemma priceAlerts_nonempty (now : Z) (d : Snapshot) (rest : list Snapshot) :
  priceAlerts now (d :: rest) = Some [].
Proof.
  unfold priceAlerts, window_alerts. simpl map. unfold bySymbol.
  cbn [fold_left].
  change (push_item (property_key (item_symbol (explode d))) (explode d) [])
    with [("undefined"%string, [explode d])].
  rewrite bySymbol_arrays.
  change ([explode d] ++ map explode rest) with (map explode (d :: rest)).
  rewrite swing_arrays_compact. reflexivity.
Qed.

(** C3, on the code: [priceAlerts$] never emits an alert.  Its buffer holds one
    array per Snapshot, so every element is grouped under the key
    "undefined" and the change computed from it is NaN: a window emits
    nothing or an empty batch; the window with BTC at 100, 100.5 and 101.2
    emits the empty batch.  The callback itself, given the three records
    one by one, yields the alert with pctChange "1.20" and isUp true. *)
Theorem price_swing_never_alerts :
  (forall now window,
     priceAlerts now window = None \/ priceAlerts now window = Some []) /\
  (forall now,
     priceAlerts now
       [mkSnapshot [quote "BTC" 100%float 5%float] 1000;
        mkSnapshot [quote "BTC" 100.5%float 5%float] 2000;
        mkSnapshot [quote "BTC" 101.2%float 5%float] 3000] = Some []) /\
  (forall now,
     window_alerts now
       [ItemObject (quote "BTC" 100%float 5%float);
        ItemObject (quote "BTC" 100.5%float 5%float);
        ItemObject (quote "BTC" 101.2%float 5%float)] =
     Some [mkPriceAlert "BTC" "1.20" true now]).
Proof.
  split; [ | split].
  - intros now [|d rest]; [left; reflexivity | right].
    apply priceAlerts_nonempty.
  - intros now. apply priceAlerts_nonempty.
  - intros now. reflexivity.
Qed.

(** C9, on the code: a window that holds a Snapshot always emits, and what it
    emits is the empty batch; only a window with no Snapshot emits
    nothing.  Given single records, one observation of a symbol or a
    change of 0.9 % also ends in the empty batch being emitted: nothing
    filters the batches by length. *)
Theorem empty_batch_is_emitted :
  (forall now d rest, priceAlerts now (d :: rest) = Some []) /\
  (forall now, priceAlerts now [] = None) /\
  (forall now c, window_alerts now [ItemObject c] = Some []) /\
  (forall now,
     window_alerts now
       [ItemObject (quote "BTC" 100%float 5%float);
        ItemObject (quote "BTC" 100.9%float 5%float)] = Some []).
Proof.
  split; [ | split; [ | split]].
  - apply priceAlerts_nonempty.
  - reflexivity.
  - intros now c. reflexivity.
  - intros now. reflexivity.
Qed.

(** ** The volume-spike detector *)

Lemma in_compact_map {A B : Type} (f : A -> option B) (l : list A) (b : B) :
  In b (compact (map f l)) <-> exists a, In a l /\ f a = Some b.
Proof.
  induction l as [|x l IH]; simpl.
  - split; [intros [] | intros (a & [] & _)].
  - destruct (f x) as [y|] eqn:E; simpl; rewrite IH; split.
    + intros [Hy | (a & Ha & Hf)].
      * subst y. exists x. auto.
      * exists a. auto.
    + intros (a & [Hx | Ha] & Hf).
      * subst a. rewrite E in Hf. injection Hf as Hf. auto.
      * right. exists a. auto.
    + intros (a & Ha & Hf). exists a. auto.
    + intros (a & [Hx | Ha] & Hf).
      * subst a. rewrite E in Hf. discriminate Hf.
      * exists a. auto.
Qed.

Lemma check_volume_some (now : Z) (previous : list Crypto) (current : Crypto)
      (a : VolumeAlert) :
  check_volume now previous current = Some a <->
  exists p,
    find (same_symbol current) previous = Some p /\
    (0.2 <? increase current p)%float = true /\
    a = mkVolumeAlert (symbol current)
                      (toFixed (increase current p * 100)%float 0) now.
Proof.
  unfold check_volume.
  destruct (find (same_symbol current) previous) as [p|]; split.
  - destruct (0.2 <? increase current p)%float eqn:E; [ | discriminate].
    intros H. injection H as H. exists p. auto.
  - intros (q & Hq & Hlt & Ha). injection Hq as Hq. subst q.
    rewrite Hlt, Ha. reflexivity.
  - discriminate.
  - intros (q & Hq & _). discriminate Hq.
Qed.



Lemma volume_run_snoc (acc : VolumeAcc) (processed : list (Z * Snapshot))
      (d : Z * Snapshot) :
  volume_run acc (processed ++ [d]) =
  volume_scan (fst d) (volume_run acc processed) (snd d).
Proof.
  unfold volume_run. rewrite fold_left_app. reflexivity.
Qed.

Lemma prev_volume_scan (now : Z) (acc : VolumeAcc) (data : Snapshot) :
  prev (volume_scan now acc data) = Some (cryptos data).
Proof.
  unfold volume_scan. destruct (prev acc); reflexivity.
Qed.

(** C5 (as amended): after every processed Snapshot, whether or not it
    raised an alert, the rolling state is the record list of that
    Snapshot: the volume recorded for a symbol is its volume in the latest
    processed Snapshot, and a symbol that this Snapshot does not have has no
    recorded volume. *)
Theorem rolling_state_is_latest_snapshot :
  (forall acc processed d,
     prev (volume_run acc (processed ++ [d])) = Some (cryptos (snd d))) /\
  (forall acc processed d sym,
     recorded_volume sym (volume_run acc (processed ++ [d])) =
     last_observed sym [d]) /\
  (forall acc processed d sym,
     find (fun p => String.eqb (symbol p) sym) (cryptos (snd d)) = None ->
     recorded_volume sym (volume_run acc (processed ++ [d])) = None).
Proof.
  assert (H : forall acc processed d sym,
     recorded_volume sym (volume_run acc (processed ++ [d])) =
     last_observed sym [d]).
  { intros acc processed d sym. unfold recorded_volume.
    rewrite volume_run_snoc, prev_volume_scan. reflexivity. }
  split; [ | split].
  - intros acc processed d. rewrite volume_run_snoc. apply prev_volume_scan.
  - exact H.
  - intros acc processed d sym Hnone. rewrite H. simpl. rewrite Hnone.
    reflexivity.
Qed.

(** ** The alert aggregator *)

Section AggregatorFacts.

Variable Entry : Type.

Lemma firstn_app_firstn (n : nat) (x y : list Entry) :
  firstn n (x ++ firstn n y) = firstn n (x ++ y).
Proof.
  rewrite !firstn_app, firstn_firstn.
  replace (Nat.min (n - List.length x) n) with (n - List.length x)%nat by lia.
  reflexivity.
Qed.

Lemma allAlerts_from (batches : list (list Entry)) :
  forall acc, (List.length acc <= 5)%nat ->
  fold_left aggregate batches acc = firstn 5 (List.concat (rev batches) ++ acc).
Proof.
  induction batches as [|b batches IH]; intros acc Hacc.
  - cbn [fold_left rev List.concat app]. symmetry.
    apply firstn_all2. exact Hacc.
  - cbn [fold_left]. rewrite IH.
    + unfold aggregate. rewrite firstn_app_firstn.
      simpl rev. rewrite concat_app. simpl List.concat.
      rewrite app_nil_r, <- app_assoc. reflexivity.
    + unfold aggregate. rewrite length_firstn. lia.
Qed.

(** C6: the retained list is the first five entries of the batches put
    newest batch first, each batch in its own order; it never has more
    than five entries; after six batches of one alert each it holds the
    last five alerts, the most recent first. *)
Theorem alert_list_keeps_newest_five :
  (forall batches : list (list Entry),
     allAlerts batches = firstn 5 (List.concat (rev batches))) /\
  (forall batches : list (list Entry),
     (List.length (allAlerts batches) <= 5)%nat) /\
  (forall (batches : list (list Entry)) (newAlerts : list Entry),
     allAlerts (batches ++ [newAlerts]) =
     firstn 5 (newAlerts ++ allAlerts batches)) /\
  (forall a1 a2 a3 a4 a5 a6 : Entry,
     allAlerts [[a1]; [a2]; [a3]; [a4]; [a5]; [a6]] = [a6; a5; a4; a3; a2]).
Proof.
  assert (H : forall batches : list (list Entry),
             allAlerts batches = firstn 5 (List.concat (rev batches))).
  { intros batches. unfold allAlerts. rewrite allAlerts_from by (simpl; lia).
    rewrite app_nil_r. reflexivity. }
  split; [exact H | split; [ | split]].
  - intros batches. rewrite H, length_firstn. lia.
  - intros batches newAlerts. unfold allAlerts.
    rewrite fold_left_app. reflexivity.
  - intros. reflexivity.
Qed.

End AggregatorFacts.

(** ** Instances *)

Lemma Math_log_ref_conforms : conforming_log Math_log_ref.
Proof.
  unfold conforming_log. repeat split; try reflexivity.
  intros x Hx. unfold Math_log_ref. rewrite Hx. reflexivity.
Qed.

(** C1, on the code: on the flaky run every retry succeeds and no two
    failures are in a row, yet the sixth failure ends in the terminal
    "error": the index that counts the failures is still 1 after the first
    failure and the open that follows it, and the service answers the last
    failure with the status "error", the empty Snapshot and the completion
    of [data$]. *)
Lemma failures_are_not_counted_in_a_row :
  consecutive_failures 0 0 flaky_run = 1%nat /\
  retryIndex (fst (run Math_log_ref initial (firstn 2 flaky_run))) = 1%nat /\
  dataDone (fst (run Math_log_ref initial flaky_run)) = true /\
  snd (run Math_log_ref (fst (run Math_log_ref initial (firstn 10 flaky_run)))
           (skipn 10 flaky_run)) =
    [Wait 1000; Status error; Data (mkSnapshot [] 301000); DataComplete].
Proof.
  repeat split.
Qed.

(** C10 (counterexample): a frame that is no JSON is no discarded message.
    The deserializer throws, the socket reports an error, and the frame
    uses up a retry like a connection failure: one such frame is answered
    by "reconnecting" and a new subscription, and six in a row end [data$]
    with the status "error". *)
Lemma malformed_frame_counts_as_failure :
  step Math_log_ref initial 5000 (frame None) =
    (mkState 1 false false, [Wait 1000; Status reconnecting; Resubscribe]) /\
  dataDone (fst (run Math_log_ref initial malformed_run)) = true /\
  filter is_error_status (snd (run Math_log_ref initial malformed_run)) =
    [Status error].
Proof.
  repeat split.
Qed.

(** The discarded message on a control frame of the feed. *)
Lemma non_array_message_is_discarded_witness :
  Array_isArray (JObj [("result"%string, JNull); ("id"%string, JNum 1%float)])
    = false /\
  step Math_log_ref initial 5000
       (SocketMessage (JObj [("result"%string, JNull); ("id"%string, JNum 1%float)]))
    = (initial, []) /\
  run Math_log_ref initial
      ((5000, SocketMessage (JObj [("result"%string, JNull); ("id"%string, JNum 1%float)]))
         :: [(6000, SocketMessage (JArr [ticker "BTCUSDT" "100" "1" "1000"]))])
    = run Math_log_ref initial
          [(6000, SocketMessage (JArr [ticker "BTCUSDT" "100" "1" "1000"]))] /\
  run Math_log_ref initial
      (discard_frames
         [(6000, SocketMessage (JArr [ticker "BTCUSDT" "100" "1" "1000"]))])
    = run Math_log_ref initial
          [(6000, SocketMessage (JArr [ticker "BTCUSDT" "100" "1" "1000"]))].
Proof.
  split; [reflexivity | ].
  apply (non_array_message_is_discarded Math_log_ref initial 5000
           (JObj [("result"%string, JNull); ("id"%string, JNum 1%float)])
           [(6000, SocketMessage (JArr [ticker "BTCUSDT" "100" "1" "1000"]))]).
  reflexivity.
Defined.

(** The unbounded score with the reference logarithm. *)
Lemma volume_score_has_no_lower_bound_witness :
  conforming_log Math_log_ref /\
  (forall v, (v <? zero)%float = true -> volume_score Math_log_ref v = nan) /\
  volume_score Math_log_ref nan = nan /\
  volume_score Math_log_ref zero = neg_infinity /\
  volume_score Math_log_ref one = zero /\
  (forall now,
     processBinanceData Math_log_ref [ticker "BTCUSDT" "100" "1" "0"] now =
     Some (mkSnapshot [mkCrypto "BTC" 100%float 1%float 0%float neg_infinity]
                      now)).
Proof.
  split; [exact Math_log_ref_conforms | ].
  apply (volume_score_has_no_lower_bound Math_log_ref Math_log_ref_conforms).
Defined.

(** C5 (counterexample): BTC is seen with volume 1000, the next processed
    Snapshot has no BTC, and the state has no volume for BTC any more,
    while its last observed volume is 1000; when BTC comes back with volume
    2000 no alert is emitted. *)
Lemma absent_symbol_is_forgotten :
  last_observed "BTC"
    [(10000, mkSnapshot [quote "BTC" 7%float 1000%float] 9000);
     (20000, mkSnapshot [] 19000)] = Some 1000%float /\
  recorded_volume "BTC"
    (volume_run volume_seed
       [(10000, mkSnapshot [quote "BTC" 7%float 1000%float] 9000);
        (20000, mkSnapshot [] 19000)]) = None /\
  volume_emit
    (volume_run volume_seed
       [(10000, mkSnapshot [quote "BTC" 7%float 1000%float] 9000);
        (20000, mkSnapshot [] 19000);
        (30000, mkSnapshot [quote "BTC" 7%float 2000%float] 29000)]) = None.
Proof.
  repeat split.
Qed.

(** The rolling state on a run whose latest Snapshot has no BTC. *)
Lemma rolling_state_is_latest_snapshot_witness :
  find (fun p => String.eqb (symbol p) "BTC")
       (cryptos (snd (20000, mkSnapshot [quote "ETH" 3%float 50%float] 19000)))
    = None /\
  recorded_volume "BTC"
    (volume_run volume_seed
       ([(10000, mkSnapshot [quote "BTC" 7%float 1000%float] 9000)]
          ++ [(20000, mkSnapshot [quote "ETH" 3%float 50%float] 19000)]))
  = None.
Proof.
  split; [reflexivity | ].
  apply (proj2 (proj2 rolling_state_is_latest_snapshot)). reflexivity.
Defined.


(** ** More on the ticker normalizer *)

Section NormalizerFacts.

Variable Math_log : number -> number.

Lemma filter_tickers_app (a b : list Json) :
  filter_tickers (a ++ b) =
  match filter_tickers a, filter_tickers b with
  | Some x, Some y => Some (x ++ y)
  | _, _ => None
  end.
Proof.
  induction a as [|item a IH]; simpl.
  - destruct (filter_tickers b); reflexivity.
  - destruct (is_ticker item) as [keep|]; [ | reflexivity].
    rewrite IH.
    destruct (filter_tickers a), (filter_tickers b), keep; reflexivity.
Qed.

Lemma sequence_app {A : Type} (x y : list (option A)) :
  sequence (x ++ y) =
  match sequence x, sequence y with
  | Some x', Some y' => Some (x' ++ y')
  | _, _ => None
  end.
Proof.
  induction x as [|[a|] x IH]; simpl.
  - destruct (sequence y); reflexivity.
  - rewrite IH. destruct (sequence x), (sequence y); reflexivity.
  - reflexivity.
Qed.

(** X1: a batch can be split anywhere.  Processing [a ++ b] throws when
    processing [a] or [b] throws, and otherwise gives the records of [a]
    followed by those of [b]. *)
Theorem processBinanceData_app (a b : list Json) (now : Z) :
  processBinanceData Math_log (a ++ b) now =
  match processBinanceData Math_log a now, processBinanceData Math_log b now with
  | Some sa, Some sb => Some (mkSnapshot (cryptos sa ++ cryptos sb) now)
  | _, _ => None
  end.
Proof.
  unfold processBinanceData. rewrite filter_tickers_app.
  destruct (filter_tickers a) as [fa|], (filter_tickers b) as [fb|]; simpl.
  - rewrite map_app, sequence_app.
    destruct (sequence (map (to_crypto Math_log) fa)),
             (sequence (map (to_crypto Math_log) fb)); reflexivity.
  - destruct (sequence (map (to_crypto Math_log) fa)); reflexivity.
  - reflexivity.
  - reflexivity.
Qed.

Lemma is_ticker_listed (item : Json) :
  is_ticker item = Some true ->
  exists s fields,
    item = JObj fields /\ own_property "s" fields = Some (JStr s) /\
    In s tickers.
Proof.
  unfold is_ticker, get.
  destruct item as [ | b | x | s | items | fields]; simpl; try discriminate.
  destruct (own_property "s" fields) as [[ | b | x | s | items | fs]|] eqn:E;
    simpl; try discriminate.
  intros H. injection H as H.
  exists s, fields. split; [reflexivity | split; [exact E | ]].
  repeat (apply orb_prop in H; destruct H as [H | H]);
    try discriminate H; apply String.eqb_eq in H; subst s; simpl; auto.
Qed.

Lemma to_crypto_symbol (item : Json) (c : Crypto) :
  is_ticker item = Some true ->
  to_crypto Math_log item = Some c ->
  In (symbol c) symbols.
Proof.
  intros Ht Hc. apply is_ticker_listed in Ht.
  destruct Ht as (s & fields & Hitem & Hs & Hin). subst item.
  unfold to_crypto, get in Hc. rewrite Hs in Hc.
  destruct (parseFloat_value (own_property "c" fields)); [ | discriminate].
  destruct (parseFloat_value (own_property "P" fields)); [ | discriminate].
  destruct (parseFloat_value (own_property "v" fields)); [ | discriminate].
  injection Hc as Hc. subst c. cbn [symbol].
  destruct Hin as [H | [H | [H | [H | []]]]]; subst s; vm_compute; auto.
Qed.

Lemma filter_tickers_kept (data : list Json) :
  forall kept, filter_tickers data = Some kept ->
  Forall (fun item => is_ticker item = Some true) kept /\
  (List.length kept <= List.length data)%nat.
Proof.
  induction data as [|item data IH]; simpl; intros kept H.
  - injection H as H. subst kept. split; [constructor | simpl; lia].
  - destruct (is_ticker item) as [keep|] eqn:E; [ | discriminate].
    destruct (filter_tickers data) as [r|]; [ | discriminate].
    destruct (IH r eq_refl) as [HF HL].
    injection H as H. subst kept. destruct keep.
    + split; [constructor; assumption | simpl; lia].
    + split; [assumption | lia].
Qed.

Lemma sequence_map_Forall {A B : Type} (f : A -> option B) (P : A -> Prop)
      (Q : B -> Prop) :
  (forall a b, P a -> f a = Some b -> Q b) ->
  forall l out, Forall P l -> sequence (map f l) = Some out ->
  Forall Q out /\ List.length out = List.length l.
Proof.
  intros HPQ. induction l as [|a l IH]; simpl; intros out HF H.
  - injection H as H. subst out. split; [constructor | reflexivity].
  - inversion HF as [|? ? Ha Hl]; subst.
    destruct (f a) as [b|] eqn:E; [ | discriminate].
    destruct (sequence (map f l)) as [r|]; [ | discriminate].
    injection H as H. subst out. destruct (IH r Hl eq_refl) as [HQ HL].
    split; [constructor; eauto | simpl; congruence].
Qed.

(** X2: whatever the message holds, a Snapshot that [processBinanceData]
    returns has the time of the call, no more records than the message has
    items, and only records whose symbol is BTC, ETH, SOL or ADA. *)
Theorem snapshot_symbols_are_listed (data : list Json) (now : Z) (snap : Snapshot) :
  processBinanceData Math_log data now = Some snap ->
  timestamp snap = now /\
  (List.length (cryptos snap) <= List.length data)%nat /\
  Forall (fun c => In (symbol c) symbols) (cryptos snap).
Proof.
  unfold processBinanceData.
  destruct (filter_tickers data) as [kept|] eqn:Ek; [ | discriminate].
  destruct (sequence (map (to_crypto Math_log) kept)) as [cs|] eqn:Es;
    [ | discriminate].
  intros H. injection H as H. subst snap. cbn [timestamp cryptos].
  destruct (filter_tickers_kept data kept Ek) as [HF HL].
  destruct (sequence_map_Forall (to_crypto Math_log)
              (fun item => is_ticker item = Some true)
              (fun c => In (symbol c) symbols)
              to_crypto_symbol kept cs HF Es) as [HQ Hlen].
  split; [reflexivity | split; [lia | exact HQ]].
Qed.



(** X4: one [null] among the items makes the processing throw, wherever
    it stands and whatever the other items are; an item that is no object,
    or an object whose [s] is no string of the allow-list, is left out
    without a trace. *)
Theorem null_item_throws_others_are_skipped :
  (forall a b now,
     processBinanceData Math_log (a ++ JNull :: b) now = None) /\
  (forall a b item now,
     is_ticker item = Some false ->
     processBinanceData Math_log (a ++ item :: b) now =
     processBinanceData Math_log (a ++ b) now).
Proof.
  split.
  - intros a b now. rewrite processBinanceData_app.
    destruct (processBinanceData Math_log a now); reflexivity.
  - intros a b item now Hi.
    change (item :: b) with ([item] ++ b).
    rewrite !processBinanceData_app.
    assert (H1 : processBinanceData Math_log [item] now = Some (mkSnapshot [] now)).
    { unfold processBinanceData. cbn [filter_tickers]. rewrite Hi. reflexivity. }
    rewrite H1.
    destruct (processBinanceData Math_log a now),
             (processBinanceData Math_log b now); reflexivity.
Qed.

End NormalizerFacts.

(** ** More on the connection service *)

Section ServiceMoreFacts.

Variable Math_log : number -> number.

Lemma step_closed (st : ServiceState) (now : Z) (ev : Event) :
  dataDone st = true -> heartbeatDone st = true ->
  not_reconnect (now, ev) = true ->
  dataDone (fst (step Math_log st now ev)) = true /\
  heartbeatDone (fst (step Math_log st now ev)) = true /\
  filter automatic (snd (step Math_log st now ev)) = [].
Proof.
  intros Hd Hh Hr.
  destruct ev; try discriminate Hr; simpl; rewrite ?Hd, ?Hh; simpl; auto.
Qed.

Lemma run_closed (tr : list (Z * Event)) :
  forall st,
  dataDone st = true -> heartbeatDone st = true ->
  forallb not_reconnect tr = true ->
  filter automatic (snd (run Math_log st tr)) = [].
Proof.
  induction tr as [|[now ev] tr IH]; intros st Hd Hh Hr.
  - reflexivity.
  - simpl in Hr. apply andb_prop in Hr. destruct Hr as [Hr1 Hr2].
    destruct (step_closed st now ev Hd Hh Hr1) as (H1 & H2 & H3).
    rewrite run_cons. cbn [snd]. rewrite filter_app, H3.
    apply IH; assumption.
Qed.

(** X5: after [close()], as long as nobody calls [reconnect()], the service
    delivers no Snapshot, starts no retry, makes no heartbeat reconnect and
    publishes none of "reconnecting", "error" and "connecting", whatever
    the socket does and however often the heartbeat ticks; a second
    [close()] only completes the socket once more. *)
Theorem nothing_automatic_after_close (st : ServiceState) (now : Z)
        (tr : list (Z * Event)) :
  forallb not_reconnect tr = true ->
  filter automatic
    (snd (run Math_log (fst (step Math_log st now CallClose)) tr)) = [] /\
  (forall later,
     step Math_log (fst (step Math_log st now CallClose)) later CallClose =
     (fst (step Math_log st now CallClose), [SocketComplete])).
Proof.
  intros Hr. split.
  - apply run_closed; [reflexivity | reflexivity | exact Hr].
  - intros later. reflexivity.
Qed.

Lemma step_error_once (st : ServiceState) (now : Z) (ev : Event) :
  (dataDone st = true ->
   filter is_error_status (snd (step Math_log st now ev)) = [] /\
   filter is_complete (snd (step Math_log st now ev)) = [] /\
   dataDone (fst (step Math_log st now ev)) = true) /\
  (dataDone st = false ->
   (filter is_error_status (snd (step Math_log st now ev)) = [] /\
    filter is_complete (snd (step Math_log st now ev)) = [] /\
    dataDone (fst (step Math_log st now ev)) = false) \/
   ((List.length (filter is_error_status (snd (step Math_log st now ev))) <= 1)%nat /\
    List.length (filter is_complete (snd (step Math_log st now ev))) = 1%nat /\
    dataDone (fst (step Math_log st now ev)) = true)).
Proof.
  split; intros Hd.
  - destruct ev; simpl; rewrite ?Hd; simpl; auto.
    destruct (heartbeatDone st); [ | destruct closed]; simpl; auto.
  - destruct ev; simpl; rewrite ?Hd; simpl;
      try (left; repeat split; first [reflexivity | assumption]);
      try (right; repeat split; simpl; auto; fail).
    + destruct m as [ | b | x | s | items | fields]; simpl;
        try (left; repeat split; first [reflexivity | assumption]).
      destruct (processBinanceData Math_log items now); simpl;
        [left; repeat split; first [reflexivity | assumption]
        | right; repeat split; simpl; auto].
    + destruct (retryIndex st) as [|[|[|[|[|n]]]]]; simpl;
        first [left; repeat split; reflexivity
              | right; repeat split; simpl; auto].
    + destruct (heartbeatDone st); [ | destruct closed]; simpl;
        left; repeat split; first [reflexivity | assumption].
Qed.

Lemma run_error_once (tr : list (Z * Event)) :
  forall st,
  (List.length (filter is_error_status (snd (run Math_log st tr))) <= 1)%nat /\
  (List.length (filter is_complete (snd (run Math_log st tr))) <= 1)%nat /\
  (List.length (filter is_error_status (snd (run Math_log st tr))) <=
   List.length (filter is_complete (snd (run Math_log st tr))))%nat /\
  (dataDone st = true ->
   filter is_error_status (snd (run Math_log st tr)) = [] /\
   filter is_complete (snd (run Math_log st tr)) = []).
Proof.
  induction tr as [|[now ev] tr IH]; intros st.
  - simpl. auto.
  - rewrite run_cons. cbn [snd]. rewrite !filter_app, !length_app.
    destruct (IH (fst (step Math_log st now ev))) as (I1 & I2 & I3 & I4).
    destruct (step_error_once st now ev) as [Hdone Hlive].
    destruct (dataDone st) eqn:Hd.
    + destruct (Hdone eq_refl) as (E1 & E2 & E3).
      destruct (I4 E3) as [J1 J2]. rewrite E1, E2, J1, J2. simpl. auto.
    + destruct (Hlive eq_refl) as [(E1 & E2 & E3) | (E1 & E2 & E3)].
      * rewrite E1, E2. simpl.
        repeat split; try assumption; discriminate.
      * destruct (I4 E3) as [J1 J2]. rewrite J1, J2, E2. simpl.
        repeat split; try lia; discriminate.
Qed.

(** X6: in any run, from any state, [data$] completes at most once and the
    status "error" is published at most once, and only together with that
    completion. *)
Theorem error_is_published_at_most_once (st : ServiceState) (tr : list (Z * Event)) :
  (List.length (filter is_error_status (snd (run Math_log st tr))) <= 1)%nat /\
  (List.length (filter is_complete (snd (run Math_log st tr))) <= 1)%nat /\
  (List.length (filter is_error_status (snd (run Math_log st tr))) <=
   List.length (filter is_complete (snd (run Math_log st tr))))%nat.
Proof.
  destruct (run_error_once tr st) as (H1 & H2 & H3 & _). auto.
Qed.

Lemma step_never_connecting (st : ServiceState) (now : Z) (ev : Event) :
  ~ In (Status connecting) (snd (step Math_log st now ev)).
Proof.
  destruct ev; simpl;
    repeat match goal with
           | |- context [if ?b then _ else _] => destruct b
           | |- context [match ?m with JArr _ => _ | _ => _ end] => destruct m
           | |- context [match processBinanceData ?l ?d ?n with _ => _ end] =>
             destruct (processBinanceData l d n)
           end; simpl; intuition discriminate.
Qed.

Lemma run_never_connecting (tr : list (Z * Event)) :
  forall st, ~ In (Status connecting) (snd (run Math_log st tr)).
Proof.
  induction tr as [|[now ev] tr IH]; intros st; [intros [] | ].
  rewrite run_cons. cbn [snd]. intros H. apply in_app_or in H.
  destruct H as [H | H].
  - exact (step_never_connecting st now ev H).
  - exact (IH _ H).
Qed.

(** X7: the five statuses of the [switch] are shown with five different
    texts, none of them "Unknown"; only "connected" gets the class
    "connected", and of all strings "connected" alone gets the note "Live
    data streaming".  The service never publishes "connecting": the only
    place that would, [reconnect()], throws before it does. *)
Theorem published_status_is_displayed :
  (forall s, fst (status_view (status_name s)) <> "Unknown"%string) /\
  (forall s1 s2,
     fst (status_view (status_name s1)) = fst (status_view (status_name s2)) ->
     s1 = s2) /\
  (forall s,
     snd (status_view (status_name s)) = "connected"%string <-> s = connected) /\
  (forall status : string,
     connection_info (status_view status) = "Live data streaming"%string <->
     status = "connected"%string) /\
  (forall st tr, ~ In (Status connecting) (snd (run Math_log st tr))).
Proof.
  split; [ | split; [ | split; [ | split]]].
  - intros s. destruct s; discriminate.
  - intros s1 s2. destruct s1, s2; simpl; intros H;
      first [reflexivity | discriminate H].
  - intros s. destruct s; split; intros H; first [reflexivity | discriminate H].
  - intros status. unfold status_view. split.
    + destruct (String.eqb status "connected") eqn:E;
        [intros _; apply String.eqb_eq; exact E | ].
      repeat match goal with
             | |- context [if ?b then _ else _] => destruct b
             end; discriminate.
    + intros H. subst status. reflexivity.
  - intros st tr. apply run_never_connecting.
Qed.

End ServiceMoreFacts.

(** ** Arithmetic of an unchanged value *)





(** ** More on the volume-spike detector *)





Lemma volume_emit_nonempty (acc : VolumeAcc) (l : list VolumeAlert) :
  volume_emit acc = Some l -> l = alerts acc /\ l <> [].
Proof.
  unfold volume_emit. destruct (alerts acc) as [|a r]; [discriminate | ].
  intros H. injection H as H. subst l. split; [reflexivity | discriminate].
Qed.

Lemma volume_alert_origin (now : Z) (acc : VolumeAcc) (data : Snapshot)
      (a : VolumeAlert) :
  In a (alerts (volume_scan now acc data)) ->
  va_timestamp a = now /\
  exists c, In c (cryptos data) /\ symbol c = va_symbol a.
Proof.
  unfold volume_scan. destruct (prev acc) as [previous|]; cbn [alerts];
    [ | intros []].
  rewrite in_compact_map. intros (c & Hin & Hc).
  apply check_volume_some in Hc. destruct Hc as (p & _ & _ & Ha). subst a.
  split; [reflexivity | ]. exists c. auto.
Qed.

Lemma volumeAlerts_batches (processed : list (Z * Snapshot)) :
  forall acc,
  Forall (fun b => b <> []) (volumeAlerts acc processed) /\
  (List.length (volumeAlerts acc processed) <= List.length processed)%nat /\
  (forall b a, In b (volumeAlerts acc processed) -> In a b ->
     exists d, In d processed /\ va_timestamp a = fst d /\
       exists c, In c (cryptos (snd d)) /\ symbol c = va_symbol a).
Proof.
  induction processed as [|d processed IH]; intros acc.
  - simpl. split; [constructor | split; [lia | intros b a []]].
  - cbn [volumeAlerts].
    destruct (IH (volume_scan (fst d) acc (snd d))) as (I1 & I2 & I3).
    destruct (volume_emit (volume_scan (fst d) acc (snd d))) as [l|] eqn:E.
    + destruct (volume_emit_nonempty _ _ E) as [Hl Hne].
      split; [constructor; assumption | split; [simpl; lia | ]].
      intros b a [Hb | Hb] Ha.
      * subst b. rewrite Hl in Ha. apply volume_alert_origin in Ha.
        destruct Ha as [Ht Hc]. exists d. split; [left; reflexivity | auto].
      * destruct (I3 b a Hb Ha) as (d' & Hd' & Hrest).
        exists d'. split; [right; exact Hd' | exact Hrest].
    + split; [assumption | split; [simpl; lia | ]].
      intros b a Hb Ha. destruct (I3 b a Hb Ha) as (d' & Hd' & Hrest).
      exists d'. split; [right; exact Hd' | exact Hrest].
Qed.

(** X9: [volumeAlerts$] never emits an empty batch, and over [n] processed
    Snapshots it emits at most [n - 1] batches, the first Snapshot only
    setting the state.  Every alert of a batch carries the time at which a
    processed Snapshot was handled and the symbol of a record of that
    Snapshot. *)
Theorem volume_batches_are_never_empty (processed : list (Z * Snapshot)) :
  Forall (fun b => b <> []) (volumeAlerts volume_seed processed) /\
  (List.length (volumeAlerts volume_seed processed)
   <= List.length processed - 1)%nat /\
  (forall b a, In b (volumeAlerts volume_seed processed) -> In a b ->
     exists d, In d processed /\ va_timestamp a = fst d /\
       exists c, In c (cryptos (snd d)) /\ symbol c = va_symbol a).
Proof.
  destruct (volumeAlerts_batches processed volume_seed) as (H1 & H2 & H3).
  split; [exact H1 | split; [ | exact H3]].
  destruct processed as [|d processed]; [simpl; lia | ].
  change (volumeAlerts volume_seed (d :: processed))
    with (volumeAlerts (volume_scan (fst d) volume_seed (snd d)) processed).
  destruct (volumeAlerts_batches processed
              (volume_scan (fst d) volume_seed (snd d))) as (_ & K & _).
  simpl. lia.
Qed.

(** ** The display feed *)

Lemma sample_bounds (evs : list UiEvent) :
  forall latest,
  (List.length (sample latest evs) <= sample_ticks evs)%nat /\
  Subsequence (sample latest evs) (pending latest ++ arrivals evs).
Proof.
  unfold sample_ticks, arrivals.
  induction evs as [|[d|] evs IH]; intros latest.
  - simpl. split; [lia | ].
    destruct latest; simpl; repeat constructor.
  - destruct (IH (Some d)) as [H1 H2]. cbn [sample map compact filter].
    split; [exact H1 | ].
    destruct latest; simpl in *; [apply sub_skip | ]; exact H2.
  - cbn [sample map compact filter List.length].
    destruct (IH None) as [H1 H2].
    destruct latest; simpl in *.
    + split; [lia | apply sub_keep; exact H2].
    + split; [lia | exact H2].
Qed.

Lemma last_default {A : Type} (l : list A) :
  forall x a b, last (x :: l) a = last (x :: l) b.
Proof.
  induction l as [|y l IH]; intros x a b; [reflexivity | ].
  change (last (x :: y :: l) a) with (last (y :: l) a).
  change (last (x :: y :: l) b) with (last (y :: l) b). apply IH.
Qed.

Lemma sample_latest (ds : list Snapshot) :
  forall d latest r,
  sample latest (map Arrives (d :: ds) ++ SampleTick :: r) =
  last (d :: ds) d :: sample None r.
Proof.
  induction ds as [|d' ds IH]; intros d latest r.
  - reflexivity.
  - change (map Arrives (d :: d' :: ds) ++ SampleTick :: r)
      with (Arrives d :: (map Arrives (d' :: ds) ++ SampleTick :: r)).
    cbn [sample]. rewrite IH. f_equal.
    change (last (d :: d' :: ds) d) with (last (d' :: ds) d).
    apply last_default.
Qed.

Lemma sample_idle (n : nat) :
  forall r, sample None (repeat SampleTick n ++ r) = sample None r.
Proof.
  induction n as [|n IH]; intros r; [reflexivity | ].
  simpl. apply IH.
Qed.

(** X10: [uiData$] emits at most one Snapshot per tick, and what it emits
    are Snapshots of [data$] in their order, none twice.  A tick after one
    or more Snapshots emits the last of them; ticks with no Snapshot since
    the last emission emit nothing. *)
Theorem ui_feed_is_sampled :
  (forall evs,
     (List.length (sample None evs) <= sample_ticks evs)%nat /\
     Subsequence (sample None evs) (arrivals evs)) /\
  (forall d ds latest r,
     sample latest (map Arrives (d :: ds) ++ SampleTick :: r) =
     last (d :: ds) d :: sample None r) /\
  (forall d n r,
     sample (Some d) (SampleTick :: repeat SampleTick n ++ r) =
     d :: sample None r).
Proof.
  split; [ | split].
  - intros evs. apply (sample_bounds evs None).
  - intros d ds latest r. apply sample_latest.
  - intros d n r. cbn [sample]. rewrite sample_idle. reflexivity.
Qed.

(** ** More on the alert aggregator *)

Section AggregatorMoreFacts.

Variable Entry : Type.

Lemma concat_nonempty (l : list (list Entry)) :
  List.concat (filter nonempty l) = List.concat l.
Proof.
  induction l as [|[|a b] l IH]; simpl; [reflexivity | exact IH | ].
  rewrite IH. reflexivity.
Qed.

(** X11: empty batches, which [priceAlerts$] emits, do not change the
    retained list: with them left out of the merged sequence the list is
    the same, and an empty batch on top of any retained list gives that
    list again. *)
Theorem empty_batches_change_nothing (batches : list (list Entry)) :
  allAlerts (filter nonempty batches) = allAlerts batches /\
  aggregate (allAlerts batches) [] = allAlerts batches.
Proof.
  assert (H : forall bs : list (list Entry),
             allAlerts bs = firstn 5 (List.concat (rev bs))).
  { intros bs. unfold allAlerts. rewrite allAlerts_from by (simpl; lia).
    rewrite app_nil_r. reflexivity. }
  split.
  - rewrite !H, <- filter_rev, concat_nonempty. reflexivity.
  - unfold aggregate. cbn [app]. rewrite H, firstn_firstn. reflexivity.
Qed.

End AggregatorMoreFacts.

(** ** Grouping by symbol *)

Lemma bySymbol_snoc (l : list Item) (x : Item) :
  bySymbol (l ++ [x]) = push_item (item_key x) x (bySymbol l).
Proof.
  unfold bySymbol. rewrite fold_left_app. reflexivity.
Qed.

Lemma push_item_group (k : string) (it : Item) (acc : list (string * list Item)) :
  forall k',
  group k' (push_item k it acc) =
  if String.eqb k k' then group k acc ++ [it] else group k' acc.
Proof.
  induction acc as [|[k0 items] acc IH]; intros k'; simpl.
  - destruct (String.eqb k k'); reflexivity.
  - destruct (String.eqb k0 k) eqn:E0; simpl.
    + apply String.eqb_eq in E0. subst k0.
      destruct (String.eqb k k'); reflexivity.
    + rewrite IH. destruct (String.eqb k k') eqn:E1; [ | reflexivity].
      apply String.eqb_eq in E1. subst k'. rewrite E0. reflexivity.
Qed.

Lemma push_item_keys (k : string) (it : Item) (acc : list (string * list Item)) :
  forall k', In k' (map fst (push_item k it acc)) ->
  k' = k \/ In k' (map fst acc).
Proof.
  induction acc as [|[k0 items] acc IH]; intros k'; simpl.
  - intros [H | []]. left. symmetry. exact H.
  - destruct (String.eqb k0 k); simpl.
    + intros [H | H]; right; auto.
    + intros [H | H]; [right; left; exact H | ].
      destruct (IH k' H); auto.
Qed.

Lemma push_item_NoDup (k : string) (it : Item) (acc : list (string * list Item)) :
  NoDup (map fst acc) -> NoDup (map fst (push_item k it acc)).
Proof.
  induction acc as [|[k0 items] acc IH]; simpl; intros Hnd.
  - constructor; [intros [] | constructor].
  - inversion Hnd as [|? ? Hk0 Hacc]; subst.
    destruct (String.eqb k0 k) eqn:E; simpl.
    + constructor; assumption.
    + constructor; [ | apply IH; exact Hacc].
      intros Hin. apply push_item_keys in Hin. destruct Hin as [H | H].
      * subst k0. rewrite String.eqb_refl in E. discriminate E.
      * exact (Hk0 H).
Qed.

Lemma push_item_nonempty (k : string) (it : Item) (acc : list (string * list Item)) :
  Forall (fun e => snd e <> []) acc ->
  Forall (fun e => snd e <> []) (push_item k it acc).
Proof.
  induction acc as [|[k0 items] acc IH]; simpl; intros HF.
  - constructor; [discriminate | constructor].
  - inversion HF as [|? ? H0 Hacc]; subst.
    destruct (String.eqb k0 k); constructor; auto.
    simpl. destruct items; discriminate.
Qed.

Lemma group_of_entry (acc : list (string * list Item)) :
  forall k items, NoDup (map fst acc) -> In (k, items) acc ->
  group k acc = items.
Proof.
  induction acc as [|[k0 items0] acc IH]; intros k items Hnd Hin;
    [destruct Hin | ].
  simpl in Hnd. inversion Hnd as [|? ? Hk0 Hacc]; subst. simpl.
  destruct Hin as [H | H].
  - injection H as H1 H2. subst. rewrite String.eqb_refl. reflexivity.
  - destruct (String.eqb k0 k) eqn:E.
    + apply String.eqb_eq in E. subst k0. exfalso. apply Hk0.
      change k with (fst (k, items)). apply in_map. exact H.
    + apply IH; assumption.
Qed.

Lemma bySymbol_invariant (buffer : list Item) :
  NoDup (map fst (bySymbol buffer)) /\
  Forall (fun e => snd e <> []) (bySymbol buffer) /\
  (forall k, group k (bySymbol buffer) =
             filter (fun it => String.eqb (item_key it) k) buffer).
Proof.
  induction buffer as [|x buffer IH] using rev_ind.
  - split; [constructor | split; [constructor | reflexivity]].
  - destruct IH as (I1 & I2 & I3). rewrite bySymbol_snoc.
    split; [apply push_item_NoDup; exact I1 | ].
    split; [apply push_item_nonempty; exact I2 | ].
    intros k. rewrite push_item_group, filter_app, !I3. simpl.
    destruct (String.eqb (item_key x) k) eqn:E.
    + apply String.eqb_eq in E. subst k. reflexivity.
    + rewrite app_nil_r. reflexivity.
Qed.

Lemma swing_symbol (now : Z) (e : string * list Item) (a : PriceAlert) :
  swing now e = Some a -> pa_symbol a = fst e /\ pa_timestamp a = now.
Proof.
  destruct e as [k items]. unfold swing.
  destruct (List.length items <? 2)%nat; [discriminate | ].
  match goal with |- context [if ?b then _ else _] => destruct b end;
    [ | discriminate].
  intros H. injection H as H. subst a. split; reflexivity.
Qed.

Lemma swings_NoDup (now : Z) (entries : list (string * list Item)) :
  NoDup (map fst entries) ->
  NoDup (map pa_symbol (compact (map (swing now) entries))) /\
  (forall k, In k (map pa_symbol (compact (map (swing now) entries))) ->
             In k (map fst entries)).
Proof.
  induction entries as [|e entries IH]; simpl; intros Hnd.
  - split; [constructor | intros k []].
  - inversion Hnd as [|? ? He Hr]; subst.
    destruct (IH Hr) as [I1 I2].
    destruct (swing now e) as [a|] eqn:E; simpl.
    + apply swing_symbol in E. destruct E as [E _]. split.
      * constructor; [ | exact I1]. intros Hin. apply He. rewrite <- E.
        apply I2. exact Hin.
      * intros k [H | H]; [left; congruence | right; apply I2; exact H].
    + split; [exact I1 | ]. intros k H. right. apply I2. exact H.
Qed.

(** X12: the grouping of a buffer whose keys are neither inherited from
    [Object.prototype] nor array indices.  The keys of [bySymbol] are
    distinct, no group is empty, and the group of a key is the elements of
    the buffer with that key in their order of arrival.  So a window emits
    at most one alert per key, each with the time the window closed at. *)
Theorem grouping_partitions_the_buffer (now : Z) (buffer : list Item) :
  forallb (fun it => plain_key (item_key it)) buffer = true ->
  NoDup (map fst (bySymbol buffer)) /\
  (forall k items,
     In (k, items) (bySymbol buffer) ->
     items <> [] /\
     items = filter (fun it => String.eqb (item_key it) k) buffer) /\
  (forall it, In it buffer -> In it (group (item_key it) (bySymbol buffer))) /\
  (forall l,
     window_alerts now buffer = Some l ->
     NoDup (map pa_symbol l) /\ Forall (fun a => pa_timestamp a = now) l).
Proof.
  intros _.
  destruct (bySymbol_invariant buffer) as (I1 & I2 & I3).
  split; [exact I1 | split; [ | split]].
  - intros k items Hin. split.
    + rewrite Forall_forall in I2. exact (I2 (k, items) Hin).
    + rewrite <- I3. symmetry. apply group_of_entry; assumption.
  - intros it Hin. rewrite I3. apply filter_In. split; [exact Hin | ].
    apply String.eqb_refl.
  - intros l Hl. unfold window_alerts in Hl.
    destruct buffer as [|x buffer]; [discriminate | ].
    injection Hl as Hl. subst l. split.
    + apply swings_NoDup. exact I1.
    + apply Forall_forall. intros a Ha. apply in_compact_map in Ha.
      destruct Ha as (e & _ & He). apply swing_symbol in He. apply He.
Qed.

(** ** From messages to Snapshots *)

Section DeliveryFacts.

Variable Math_log : number -> number.

Lemma step_delivers (k : nat) (st : ServiceState) (now : Z) (ev : Event) :
  after_failures k st ->
  quiet Math_log (now, ev) = true ->
  (failures [(now, ev)] + k <= 5)%nat ->
  snapshots (snd (step Math_log st now ev)) = delivered Math_log [(now, ev)].
Proof.
  unfold after_failures. intros Hk Hq Hle.
  assert (Hk5 : (k <= 5)%nat) by lia.
  apply Nat.leb_le in Hk5. rewrite Hk5 in Hk. destruct Hk as [Hi Hd].
  destruct ev; try discriminate Hq; try reflexivity.
  - unfold quiet in Hq. cbn [snd] in Hq. apply negb_true_iff in Hq.
    cbn [step]. rewrite Hd.
    destruct m as [ | b | x | s | items | fields]; try reflexivity.
    destruct (processBinanceData_throws Math_log items now Hq) as (s & Hs).
    unfold delivered. cbn [map snd fst compact]. rewrite Hs. reflexivity.
  - change (failures [(now, SocketError)]) with 1%nat in Hle.
    cbn [step]. rewrite Hd, Hi.
    assert (H5 : (5 <=? k)%nat = false) by (apply Nat.leb_gt; lia).
    rewrite H5. reflexivity.
  - cbn [step]. destruct (heartbeatDone st); [ | destruct closed]; reflexivity.
Qed.

Lemma snapshots_app (a b : list Effect) :
  snapshots (a ++ b) = snapshots a ++ snapshots b.
Proof.
  unfold snapshots. induction a as [|e a IH]; [reflexivity | ].
  simpl. destruct (snapshot_of e); simpl; rewrite IH; reflexivity.
Qed.

Lemma delivered_cons (e : Z * Event) (tr : list (Z * Event)) :
  delivered Math_log (e :: tr) = delivered Math_log [e] ++ delivered Math_log tr.
Proof.
  unfold delivered. simpl.
  destruct (snd e) as [ | | m | | | | | ]; try reflexivity.
  destruct m; try reflexivity.
  destruct (processBinanceData Math_log items (fst e)); reflexivity.
Qed.

Lemma run_delivers (tr : list (Z * Event)) :
  forall k st,
  after_failures k st ->
  forallb (quiet Math_log) tr = true ->
  (failures tr + k <= 5)%nat ->
  snapshots (snd (run Math_log st tr)) = delivered Math_log tr.
Proof.
  induction tr as [|[now ev] tr IH]; intros k st Hk Hq Hle.
  - reflexivity.
  - simpl in Hq. apply andb_prop in Hq. destruct Hq as [Hq Hr].
    rewrite failures_cons in Hle.
    destruct (step_quiet Math_log k st now ev tr Hk Hq) as (Hk' & _).
    rewrite run_cons. cbn [snd]. rewrite snapshots_app, delivered_cons.
    rewrite (step_delivers k st now ev Hk Hq) by lia.
    f_equal. apply (IH (failures [(now, ev)] + k)%nat); [exact Hk' | exact Hr | lia].
Qed.

(** X15: on a run with at most five failures, no end of the socket stream,
    no [close()] and no message on which the processing throws, [data$]
    delivers exactly one Snapshot per array message, in the order of the
    messages and with the time each was handled at, through every retry in
    between; no other event delivers one. *)
Theorem every_array_message_is_delivered (tr : list (Z * Event)) :
  forallb (quiet Math_log) tr = true ->
  (failures tr <= 5)%nat ->
  snapshots (snd (run Math_log initial tr)) = delivered Math_log tr.
Proof.
  intros Hq Hle. apply (run_delivers tr 0 initial); [ | exact Hq | lia].
  unfold after_failures. simpl. auto.
Qed.

End DeliveryFacts.

(** ** Instances of the further properties *)

(** A message with a listed ticker, a number and an unlisted ticker. *)
Lemma snapshot_symbols_are_listed_witness :
  processBinanceData Math_log_ref
    [ticker "BTCUSDT" "100" "1" "1000"; JNum 3%float;
     ticker "XRPUSDT" "2" "1" "5"] 5 =
  Some (mkSnapshot [mkCrypto "BTC" 100%float 1%float 1000%float 1%float] 5) /\
  timestamp (mkSnapshot [mkCrypto "BTC" 100%float 1%float 1000%float 1%float] 5)
    = 5 /\
  (List.length
     (cryptos (mkSnapshot [mkCrypto "BTC" 100%float 1%float 1000%float 1%float] 5))
   <= List.length [ticker "BTCUSDT" "100" "1" "1000"; JNum 3%float;
                   ticker "XRPUSDT" "2" "1" "5"])%nat /\
  Forall (fun c => In (symbol c) symbols)
    (cryptos (mkSnapshot [mkCrypto "BTC" 100%float 1%float 1000%float 1%float] 5)).
Proof.
  split; [reflexivity | ].
  apply (snapshot_symbols_are_listed Math_log_ref
           [ticker "BTCUSDT" "100" "1" "1000"; JNum 3%float;
            ticker "XRPUSDT" "2" "1" "5"] 5).
  reflexivity.
Defined.

(** A string among the items is left out. *)
Lemma null_item_throws_others_are_skipped_witness :
  is_ticker (JStr "ping") = Some false /\
  processBinanceData Math_log_ref
    ([ticker "BTCUSDT" "100" "1" "1000"] ++ JStr "ping" :: []) 5 =
  processBinanceData Math_log_ref
    ([ticker "BTCUSDT" "100" "1" "1000"] ++ []) 5.
Proof.
  split; [reflexivity | ].
  apply (proj2 (null_item_throws_others_are_skipped Math_log_ref)).
  reflexivity.
Defined.

(** After [close()]: a failure, a message and a heartbeat tick that finds
    the socket closed. *)
Lemma nothing_automatic_after_close_witness :
  forallb not_reconnect
    [(1000, SocketError);
     (2000, SocketMessage (JArr [ticker "BTCUSDT" "100" "1" "1000"]));
     (30000, HeartbeatTick true)] = true /\
  filter automatic
    (snd (run Math_log_ref (fst (step Math_log_ref initial 0 CallClose))
            [(1000, SocketError);
             (2000, SocketMessage (JArr [ticker "BTCUSDT" "100" "1" "1000"]));
             (30000, HeartbeatTick true)])) = [] /\
  (forall later,
     step Math_log_ref (fst (step Math_log_ref initial 0 CallClose)) later
          CallClose =
     (fst (step Math_log_ref initial 0 CallClose), [SocketComplete])).
Proof.
  split; [reflexivity | ].
  apply (nothing_automatic_after_close Math_log_ref initial 0). reflexivity.
Defined.


(** A buffer of single records: BTC, ETH, BTC. *)
Lemma grouping_partitions_the_buffer_witness :
  forallb (fun it => plain_key (item_key it))
    [ItemObject (quote "BTC" 100%float 5%float);
     ItemObject (quote "ETH" 7%float 5%float);
     ItemObject (quote "BTC" 101%float 5%float)] = true /\
  In ("BTC"%string,
      [ItemObject (quote "BTC" 100%float 5%float);
       ItemObject (quote "BTC" 101%float 5%float)])
     (bySymbol [ItemObject (quote "BTC" 100%float 5%float);
                ItemObject (quote "ETH" 7%float 5%float);
                ItemObject (quote "BTC" 101%float 5%float)]) /\
  [ItemObject (quote "BTC" 100%float 5%float);
   ItemObject (quote "BTC" 101%float 5%float)] <> [] /\
  [ItemObject (quote "BTC" 100%float 5%float);
   ItemObject (quote "BTC" 101%float 5%float)] =
  filter (fun it => String.eqb (item_key it) "BTC")
         [ItemObject (quote "BTC" 100%float 5%float);
          ItemObject (quote "ETH" 7%float 5%float);
          ItemObject (quote "BTC" 101%float 5%float)].
Proof.
  assert (Hin : In ("BTC"%string,
      [ItemObject (quote "BTC" 100%float 5%float);
       ItemObject (quote "BTC" 101%float 5%float)])
     (bySymbol [ItemObject (quote "BTC" 100%float 5%float);
                ItemObject (quote "ETH" 7%float 5%float);
                ItemObject (quote "BTC" 101%float 5%float)])).
  { left. reflexivity. }
  split; [reflexivity | split; [exact Hin | ]].
  exact (proj1 (proj2 (grouping_partitions_the_buffer 0
                         [ItemObject (quote "BTC" 100%float 5%float);
                          ItemObject (quote "ETH" 7%float 5%float);
                          ItemObject (quote "BTC" 101%float 5%float)]
                         eq_refl))
               _ _ Hin).
Defined.

(** Delivery on the retried run. *)
Lemma every_array_message_is_delivered_witness :
  forallb (quiet Math_log_ref) retried_run = true /\
  (failures retried_run <= 5)%nat /\
  snapshots (snd (run Math_log_ref initial retried_run)) =
  delivered Math_log_ref retried_run.
Proof.
  split; [reflexivity | split; [vm_compute; lia | ]].
  apply (every_array_message_is_delivered Math_log_ref); [reflexivity | ].
  vm_compute. lia.
Defined.
